(** * LIVISI data update coordinator

    A shallow embedding of [custom_components/livisi/coordinator.py]
    (class [LivisiDataUpdateCoordinator]) and the properties of its poll
    cycle, its registries and its event dispatch.

    The coordinator talks to three collaborators that are not part of the
    file: the vendor client ([self.aiolivisi]), the websocket transport
    ([self.websocket]) and the host ([self.hass]).  The first two are an
    interface ([VendorClient]) over an arbitrary external world; the host is
    a log of the calls made on it. *)

From stdpp Require Import gmap strings list fin_maps.
From Stdlib Require Import ZArith.

Local Open Scope Z_scope.

(** ** Python values and exceptions *)

(** The [Any] payloads that travel through the coordinator: event fields,
    event properties and capability state values.  A float is carried as
    mantissa and exponent; the coordinator never computes on it. *)
Inductive Value : Type :=
| VNone
| VBool (b : bool)
| VInt (n : Z)
| VFloat (m e : Z)
| VStr (s : string).

#[global] Instance Value_eq_dec : EqDecision Value.
Proof. solve_decision. Defined.

(** [data is not None] *)
Definition is_not_None (v : Value) : bool :=
  match v with VNone => false | _ => true end.

(** The exceptions the coordinator can see.  [UpdateFailed msg cause] is
    [raise UpdateFailed(msg) from cause]. *)
Inductive Exn : Type :=
| TokenExpiredException
| ClientConnectorError
| UpdateFailed (msg : string) (cause : Exn)
| KeyError (key : string)
| OtherError (name : string).

#[global] Instance Exn_eq_dec : EqDecision Exn.
Proof. solve_decision. Defined.

Inductive Outcome (A : Type) : Type :=
| Return (a : A)
| Raise (e : Exn).
Arguments Return {A} a.
Arguments Raise {A} e.

(** ** Records exchanged with the vendor client *)

(** A device is a [dict]; the coordinator reads three keys.  [None] is an
    absent key: [device["id"]] then raises [KeyError], while
    [device.get("capabilities", [])] and [device.get("location")] default. *)
Record Device : Type := {
  dev_id : option string;
  dev_capabilities : option (list string);
  dev_location : option string
}.

Record ControllerData : Type := {
  cd_controllerType : option string;
  cd_serialNumber : option string
}.

Record RoomConfig : Type := { cfg_name : option string }.

Record Room : Type := {
  room_id : option string;
  room_config : option RoomConfig
}.

(** The event handed to [on_data]: the attributes the handler reads. *)
Record LivisiEvent : Type := {
  type : string;
  source : string;
  properties : gmap string Value;
  onState : Value;
  vrccData : Value;
  isOpen : Value;
  luminance : Value;
  isReachable : Value
}.

(** ** Constants imported from [.const] and [.aiolivisi.const] *)

Class Const : Type := {
  AVATAR : string;
  AVATAR_PORT : Z;
  CLASSIC_PORT : Z;
  CONF_HOST : string;
  CONF_PASSWORD : string;
  EVENT_BUTTON_PRESSED : string;
  EVENT_MOTION_DETECTED : string;
  LIVISI_REACHABILITY_CHANGE : string;
  LIVISI_STATE_CHANGE : string;
  LIVISI_EVENT_BUTTON_PRESSED : string;
  LIVISI_EVENT_MOTION_DETECTED : string;
  LIVISI_EVENT_STATE_CHANGED : string
}.

(** ** The collaborators *)

(** The vendor client and the websocket transport, over an external world
    [W] (controller, network, token).  Each call returns or raises and
    moves the world on.  [websocket_connect] stands for the request to
    connect; what the transport does while it is connected (handing events
    to [on_data], calling [on_close] at the end) belongs to the transport
    and is not unfolded here. *)
Class VendorClient (W : Type) : Type := {
  livisi_connection_data : W -> option (gmap string string);
  client_set_token : option (gmap string string) -> W -> Outcome unit * W;
  client_get_controller : W -> Outcome ControllerData * W;
  client_get_devices : W -> Outcome (list Device) * W;
  client_get_device_state :
    string -> W -> Outcome (option (gmap string (gmap string Value))) * W;
  client_get_all_rooms : W -> Outcome (list Room) * W;
  websocket_connect : Z -> W -> Outcome unit * W
}.

(** What the coordinator does to the outside, in order. *)
Inductive Effect : Type :=
| CallSetToken (connection_data : option (gmap string string))
| CallGetController
| CallGetDevices
| CallGetDeviceState (capability : string)
| CallGetAllRooms
| WebsocketConnect (port : Z)
| DispatcherSend (signal : string) (data : Value)
| BusFire (event_type : string) (event_data : list (string * Value)).

#[global] Instance Effect_eq_dec : EqDecision Effect.
Proof. solve_decision. Defined.

(** ** Coordinator state *)

(** The attributes set in [__init__], and [data], the snapshot attribute
    inherited from [DataUpdateCoordinator]: the scheduler stores there what
    [_async_update_data] returns; no method of this class assigns it. *)
Record Coordinator : Type := {
  config_entry : gmap string string;
  devices : gset string;
  capability_to_device : gmap string string;
  rooms : gmap string string;
  serial_number : string;
  controller_type : string;
  is_avatar : bool;
  port : Z;
  data : option (list Device)
}.

Definition set_capability_to_device (m : gmap string string) (c : Coordinator) :=
  {| config_entry := config_entry c; devices := devices c;
     capability_to_device := m; rooms := rooms c;
     serial_number := serial_number c; controller_type := controller_type c;
     is_avatar := is_avatar c; port := port c; data := data c |}.

Definition set_rooms (m : gmap string string) (c : Coordinator) :=
  {| config_entry := config_entry c; devices := devices c;
     capability_to_device := capability_to_device c; rooms := m;
     serial_number := serial_number c; controller_type := controller_type c;
     is_avatar := is_avatar c; port := port c; data := data c |}.

Definition set_serial_number (s : string) (c : Coordinator) :=
  {| config_entry := config_entry c; devices := devices c;
     capability_to_device := capability_to_device c; rooms := rooms c;
     serial_number := s; controller_type := controller_type c;
     is_avatar := is_avatar c; port := port c; data := data c |}.

Definition set_controller_type (s : string) (c : Coordinator) :=
  {| config_entry := config_entry c; devices := devices c;
     capability_to_device := capability_to_device c; rooms := rooms c;
     serial_number := serial_number c; controller_type := s;
     is_avatar := is_avatar c; port := port c; data := data c |}.

Definition set_is_avatar (b : bool) (c : Coordinator) :=
  {| config_entry := config_entry c; devices := devices c;
     capability_to_device := capability_to_device c; rooms := rooms c;
     serial_number := serial_number c; controller_type := controller_type c;
     is_avatar := b; port := port c; data := data c |}.

Definition set_port (p : Z) (c : Coordinator) :=
  {| config_entry := config_entry c; devices := devices c;
     capability_to_device := capability_to_device c; rooms := rooms c;
     serial_number := serial_number c; controller_type := controller_type c;
     is_avatar := is_avatar c; port := p; data := data c |}.

Definition __init__ (config : gmap string string) : Coordinator :=
  {| config_entry := config; devices := ∅; capability_to_device := ∅;
     rooms := ∅; serial_number := ""; controller_type := "";
     is_avatar := false; port := 0; data := None |}.

(** ** The monad of coordinator methods *)

Record World (W : Type) : Type := {
  self : Coordinator;
  ext : W;
  log : list Effect
}.
Arguments self {W} _.
Arguments ext {W} _.
Arguments log {W} _.

(** A method runs on a world and returns or raises; what it wrote before
    raising stays written. *)
Definition M (W A : Type) : Type := World W -> Outcome A * World W.

Section Monad.
Context {W : Type}.

Definition ret {A} (a : A) : M W A := fun s => (Return a, s).

Definition raise {A} (e : Exn) : M W A := fun s => (Raise e, s).

Definition bind {A B} (m : M W A) (k : A -> M W B) : M W B :=
  fun s => match m s with
           | (Return a, s') => k a s'
           | (Raise e, s') => (Raise e, s')
           end.

(** [try: m  except ...: h e]; a handler that does not match re-raises. *)
Definition try_except {A} (m : M W A) (h : Exn -> M W A) : M W A :=
  fun s => match m s with
           | (Return a, s') => (Return a, s')
           | (Raise e, s') => h e s'
           end.

Definition get_self : M W Coordinator := fun s => (Return (self s), s).

Definition modify_self (f : Coordinator -> Coordinator) : M W unit :=
  fun s => (Return tt, {| self := f (self s); ext := ext s; log := log s |}).

Definition emit (e : Effect) : M W unit :=
  fun s => (Return tt, {| self := self s; ext := ext s; log := log s ++ [e] |}).

(** A call on a collaborator: logged, then answered by the world. *)
Definition call {A} (e : Effect) (f : W -> Outcome A * W) : M W A :=
  fun s => let '(r, w) := f (ext s) in
           (r, {| self := self s; ext := w; log := log s ++ [e] |}).

Definition read_ext {A} (f : W -> A) : M W A := fun s => (Return (f (ext s)), s).

(** [d[key]] on an optional entry *)
Definition subscript {A} (key : string) (o : option A) : M W A :=
  match o with Some a => ret a | None => raise (KeyError key) end.

(** [for x in xs: body x] *)
Fixpoint for_each {A} (xs : list A) (body : A -> M W unit) : M W unit :=
  match xs with
  | [] => ret tt
  | x :: xs' => bind (body x) (fun _ => for_each xs' body)
  end.
End Monad.

Notation "'let*' x ':=' m 'in' k" := (bind m (fun x => k))
  (at level 10, x name, m at level 100, k at level 200).
Notation "m ';;' k" := (bind m (fun _ => k))
  (at level 100, k at level 200, right associativity).

(** ** The methods of [LivisiDataUpdateCoordinator] *)

Section Coordinator.
Context {K : Const} {W : Type} {VC : VendorClient W}.

(** The inner loop of [async_get_devices]:
    [for capability_id in ...: capability_mapping[capability_id] = device["id"]].
    [device["id"]] is evaluated once per capability. *)
Fixpoint map_capabilities (device : Device) (capabilities : list string)
    (capability_mapping : gmap string string) : Outcome (gmap string string) :=
  match capabilities with
  | [] => Return capability_mapping
  | capability_id :: rest =>
      match dev_id device with
      | Some id => map_capabilities device rest (<[capability_id := id]> capability_mapping)
      | None => Raise (KeyError "id")
      end
  end.

(** The outer loop: [for device in devices: ...] *)
Fixpoint map_devices (devices : list Device)
    (capability_mapping : gmap string string) : Outcome (gmap string string) :=
  match devices with
  | [] => Return capability_mapping
  | device :: rest =>
      match map_capabilities device (default [] (dev_capabilities device))
              capability_mapping with
      | Return m => map_devices rest m
      | Raise e => Raise e
      end
  end.

Definition lift_outcome {A} (o : Outcome A) : M W A :=
  match o with Return a => ret a | Raise e => raise e end.

Definition async_get_devices : M W (list Device) :=
  let* devices := call CallGetDevices client_get_devices in
  let* capability_mapping := lift_outcome (map_devices devices ∅) in
  modify_self (set_capability_to_device capability_mapping) ;;
  ret devices.

Definition _async_update_data : M W (list Device) :=
  try_except async_get_devices (fun exc =>
    match exc with
    | TokenExpiredException =>
        let* connection_data := read_ext livisi_connection_data in
        call (CallSetToken connection_data) (client_set_token connection_data) ;;
        async_get_devices
    | ClientConnectorError =>
        raise (UpdateFailed "Failed to get livisi devices from controller" exc)
    | _ => raise exc
    end).

Definition _async_dispatcher_send (event source : string) (data : Value) : M W unit :=
  if is_not_None data
  then emit (DispatcherSend (event +:+ "_" +:+ source) data)
  else ret tt.

(** [not self.aiolivisi.livisi_connection_data]: [None] and the empty
    dict are falsy. *)
Definition falsy (connection_data : option (gmap string string)) : bool :=
  match connection_data with
  | None => true
  | Some m => bool_decide (m = ∅)
  end.

Definition async_setup : M W unit :=
  let* cached := read_ext livisi_connection_data in
  (if falsy cached then
     let* c := get_self in
     let* host := subscript CONF_HOST (config_entry c !! CONF_HOST) in
     let* password := subscript CONF_PASSWORD (config_entry c !! CONF_PASSWORD) in
     let livisi_connection_data :=
       Some (<["password" := password]> (<["ip_address" := host]> ∅)) in
     call (CallSetToken livisi_connection_data)
          (client_set_token livisi_connection_data)
   else ret tt) ;;
  let* controller_data := call CallGetController client_get_controller in
  let* controller_type :=
    subscript "controllerType" (cd_controllerType controller_data) in
  (if decide (controller_type = AVATAR) then
     modify_self (set_port AVATAR_PORT) ;;
     modify_self (set_is_avatar true)
   else
     modify_self (set_port CLASSIC_PORT) ;;
     modify_self (set_is_avatar false)) ;;
  modify_self (set_controller_type controller_type) ;;
  let* serial := subscript "serialNumber" (cd_serialNumber controller_data) in
  modify_self (set_serial_number serial).

(** [capability[1:]] *)
Definition strip_prefix (capability : string) : string :=
  match capability with
  | EmptyString => EmptyString
  | String _ rest => rest
  end.

Definition async_get_device_state (capability key : string) : M W Value :=
  let* response :=
    call (CallGetDeviceState (strip_prefix capability))
         (client_get_device_state (strip_prefix capability)) in
  match response with
  | None => ret VNone
  | Some response =>
      ret (default VNone (default ∅ (response !! key) !! "value"))
  end.

Definition async_set_all_rooms : M W unit :=
  let* response := call CallGetAllRooms client_get_all_rooms in
  for_each response (fun available_room =>
    let* available_room_config := subscript "config" (room_config available_room) in
    let* name := subscript "name" (cfg_name available_room_config) in
    let* id := subscript "id" (room_id available_room) in
    modify_self (fun c => set_rooms (<[id := name]> (rooms c)) c)).

(** A synchronous method that only reads [self.rooms]. *)
Definition get_room_name (c : Coordinator) (device : Device) : option string :=
  let room_id := dev_location device in
  let room_name := None in
  match room_id with
  | Some room_id => rooms c !! room_id
  | None => room_name
  end.

Definition on_data (event_data : LivisiEvent) : M W unit :=
  if decide (type event_data = LIVISI_EVENT_BUTTON_PRESSED) then
    let* c := get_self in
    match capability_to_device c !! source event_data with
    | Some device_id =>
        let livisi_event_data :=
          [ ("device_id", VStr device_id);
            ("type", VStr EVENT_BUTTON_PRESSED);
            ("button_index", default (VInt 0) (properties event_data !! "index"));
            ("press_type",
              default (VStr "ShortPress") (properties event_data !! "type")) ] in
        emit (BusFire "livisi_event" livisi_event_data)
    | None => ret tt
    end
  else if decide (type event_data = LIVISI_EVENT_MOTION_DETECTED) then
    let* c := get_self in
    match capability_to_device c !! source event_data with
    | Some device_id =>
        let livisi_event_data :=
          [ ("device_id", VStr device_id);
            ("type", VStr EVENT_MOTION_DETECTED) ] in
        emit (BusFire "livisi_event" livisi_event_data)
    | None => ret tt
    end
  else if decide (type event_data = LIVISI_EVENT_STATE_CHANGED) then
    _async_dispatcher_send LIVISI_STATE_CHANGE (source event_data)
      (onState event_data) ;;
    _async_dispatcher_send LIVISI_STATE_CHANGE (source event_data)
      (vrccData event_data) ;;
    _async_dispatcher_send LIVISI_STATE_CHANGE (source event_data)
      (isOpen event_data) ;;
    _async_dispatcher_send LIVISI_STATE_CHANGE (source event_data)
      (luminance event_data) ;;
    _async_dispatcher_send LIVISI_REACHABILITY_CHANGE (source event_data)
      (isReachable event_data)
  else ret tt.

Definition on_close : M W unit :=
  let* c := get_self in
  for_each (elements (devices c)) (fun device_id =>
    _async_dispatcher_send LIVISI_REACHABILITY_CHANGE device_id (VBool false)) ;;
  let* c := get_self in
  call (WebsocketConnect (port c)) (websocket_connect (port c)).

Definition ws_connect : M W unit :=
  let* c := get_self in
  call (WebsocketConnect (port c)) (websocket_connect (port c)).

End Coordinator.

(** ** A scripted vendor client

    A test double: the answers of the controller are laid out in advance,
    one per call for the device list and the token. *)

Module Scripted.

Record Script : Type := {
  connection_data : option (gmap string string);
  get_devices_answers : list (Outcome (list Device));
  set_token_answers : list (Outcome unit);
  controller_answer : Outcome ControllerData;
  state_answer : string -> Outcome (option (gmap string (gmap string Value)));
  rooms_answer : Outcome (list Room);
  connect_answer : Outcome unit
}.

Definition exhausted {A} : Outcome A := Raise (OtherError "script exhausted").

Definition get_devices (w : Script) : Outcome (list Device) * Script :=
  ( match get_devices_answers w with a :: _ => a | [] => exhausted end,
    {| connection_data := connection_data w;
       get_devices_answers := tail (get_devices_answers w);
       set_token_answers := set_token_answers w;
       controller_answer := controller_answer w;
       state_answer := state_answer w;
       rooms_answer := rooms_answer w;
       connect_answer := connect_answer w |} ).

Definition set_token (cd : option (gmap string string)) (w : Script)
    : Outcome unit * Script :=
  let a := match set_token_answers w with a :: _ => a | [] => exhausted end in
  ( a,
    {| connection_data :=
         match a with Return _ => cd | Raise _ => connection_data w end;
       get_devices_answers := get_devices_answers w;
       set_token_answers := tail (set_token_answers w);
       controller_answer := controller_answer w;
       state_answer := state_answer w;
       rooms_answer := rooms_answer w;
       connect_answer := connect_answer w |} ).

#[global] Instance client : VendorClient Script := {|
  livisi_connection_data := connection_data;
  client_set_token := set_token;
  client_get_controller w := (controller_answer w, w);
  client_get_devices := get_devices;
  client_get_device_state c w := (state_answer w c, w);
  client_get_all_rooms w := (rooms_answer w, w);
  websocket_connect _ w := (connect_answer w, w)
|}.

(** Values of the imported constants used in the examples. *)
Definition const : Const := {|
  AVATAR := "Avatar";
  AVATAR_PORT := 9090;
  CLASSIC_PORT := 8080;
  CONF_HOST := "host";
  CONF_PASSWORD := "password";
  EVENT_BUTTON_PRESSED := "button_pressed";
  EVENT_MOTION_DETECTED := "motion_detected";
  LIVISI_REACHABILITY_CHANGE := "livisi_reachability_change";
  LIVISI_STATE_CHANGE := "livisi_state_change";
  LIVISI_EVENT_BUTTON_PRESSED := "ButtonPressed";
  LIVISI_EVENT_MOTION_DETECTED := "MotionDetected";
  LIVISI_EVENT_STATE_CHANGED := "StateChanged"
|}.

Definition script (answers : list (Outcome (list Device)))
    (tokens : list (Outcome unit)) : Script :=
  {| connection_data := Some {[ "ip_address" := "192.168.0.2"; "password" := "secret" ]};
     get_devices_answers := answers;
     set_token_answers := tokens;
     controller_answer :=
       Return {| cd_controllerType := Some "Avatar"; cd_serialNumber := Some "914100001" |};
     state_answer := fun _ => Return None;
     rooms_answer :=
       Return [ {| room_id := Some "r1";
                   room_config := Some {| cfg_name := Some "Kitchen" |} |} ];
     connect_answer := Return tt |}.

Definition start (c : Coordinator) (w : Script) : World Script :=
  {| self := c; ext := w; log := [] |}.

Definition d1 : Device :=
  {| dev_id := Some "d1"; dev_capabilities := Some ["c1"; "c2"];
     dev_location := Some "r1" |}.

Definition d2 : Device :=
  {| dev_id := Some "d2"; dev_capabilities := Some ["c2"; "c3"];
     dev_location := None |}.

(** A coordinator that has polled [d1] before and knows the kitchen. *)
Definition polled : Coordinator :=
  set_rooms {[ "r1" := "Kitchen" ]}
    (set_capability_to_device {[ "c1" := "d1"; "c2" := "d1" ]} (__init__ ∅)).

(** The token has expired; after the refresh the controller answers. *)
Definition expired_then_answered : World Script :=
  start polled (script [Raise TokenExpiredException; Return [d1; d2]] [Return tt]).

(** The token has expired and the refreshed one is refused as well. *)
Definition expired_twice : World Script :=
  start polled
    (script [Raise TokenExpiredException; Raise TokenExpiredException] [Return tt]).

Definition unreachable_controller : World Script :=
  start polled (script [Raise ClientConnectorError] []).

Definition answered : World Script :=
  start (__init__ ∅) (script [Return [d1; d2]] []).

Definition idle : World Script := start polled (script [] []).

Definition event (kind origin : string) : LivisiEvent :=
  {| type := kind; source := origin; properties := ∅;
     onState := VNone; vrccData := VNone; isOpen := VNone;
     luminance := VNone; isReachable := VNone |}.

Definition luminance_42 : LivisiEvent :=
  {| type := "StateChanged"; source := "c1"; properties := ∅;
     onState := VNone; vrccData := VNone; isOpen := VNone;
     luminance := VInt 42; isReachable := VNone |}.

Definition long_press : LivisiEvent :=
  {| type := "ButtonPressed"; source := "c1";
     properties := {[ "index" := VInt 2; "type" := VStr "LongPress" ]};
     onState := VNone; vrccData := VNone; isOpen := VNone;
     luminance := VNone; isReachable := VNone |}.

(** A device that declares a capability but has no id, and one that has
    neither id nor capabilities. *)
Definition nameless : Device :=
  {| dev_id := None; dev_capabilities := Some ["c9"]; dev_location := None |}.

Definition bare : Device :=
  {| dev_id := None; dev_capabilities := None; dev_location := Some "r2" |}.

Definition answered_nameless : World Script :=
  start polled (script [Return [d1; nameless]] []).

Definition answered_bare : World Script :=
  start polled (script [Return [d1; bare]] []).

Definition kitchen : Room :=
  {| room_id := Some "r1"; room_config := Some {| cfg_name := Some "Kitchen" |} |}.

Definition kitchen_renamed : Room :=
  {| room_id := Some "r1"; room_config := Some {| cfg_name := Some "Cuisine" |} |}.

Definition bath : Room :=
  {| room_id := Some "r3"; room_config := Some {| cfg_name := Some "Bath" |} |}.

Definition unnamed_room : Room :=
  {| room_id := Some "r2"; room_config := Some {| cfg_name := None |} |}.

(** A world whose controller data and rooms are chosen, with or without
    cached connection data. *)
Definition world (c : Coordinator) (cached : option (gmap string string))
    (tokens : list (Outcome unit)) (controller : Outcome ControllerData)
    (response : Outcome (list Room)) : World Script :=
  start c
    {| connection_data := cached;
       get_devices_answers := [];
       set_token_answers := tokens;
       controller_answer := controller;
       state_answer := fun _ => Return None;
       rooms_answer := response;
       connect_answer := Return tt |}.

Definition classic : ControllerData :=
  {| cd_controllerType := Some "Classic"; cd_serialNumber := Some "914100002" |}.

Definition classic_without_serial : ControllerData :=
  {| cd_controllerType := Some "Classic"; cd_serialNumber := None |}.

Definition with_rooms (response : list Room) : World Script :=
  world polled None [] (Return classic) (Return response).

Definition configured_entry : gmap string string :=
  {[ "host" := "192.168.0.2"; "password" := "secret" ]}.

Definition motion : LivisiEvent := event "MotionDetected" "c2".

End Scripted.

(** * Vocabulary of the properties *)

Section Vocabulary.
Context {K : Const} {W : Type} {VC : VendorClient W}.

(** The capability ids a device declares. *)
Definition declares (device : Device) (capability_id : string) : Prop :=
  capability_id ∈ default [] (dev_capabilities device).

#[global] Instance declares_dec device capability_id :
  Decision (declares device capability_id).
Proof. unfold declares. apply _. Defined.

(** The last device of the list that declares the capability. *)
Fixpoint last_declaring (devices : list Device) (capability_id : string)
    : option Device :=
  match devices with
  | [] => None
  | device :: rest =>
      match last_declaring rest capability_id with
      | Some later => Some later
      | None => if decide (declares device capability_id) then Some device else None
      end
  end.

(** What the handler of [TokenExpiredException] runs: the token refresh
    with the cached connection data. *)
Definition refresh_token (s : World W) : Outcome unit * World W :=
  call (CallSetToken (livisi_connection_data (ext s)))
       (client_set_token (livisi_connection_data (ext s))) s.

(** The signal of a publish: [f"{event}_{source}"]. *)
Definition signal (event source : string) : string := event +:+ "_" +:+ source.

(** The three event types the handler knows are three different strings. *)
Definition event_types_distinct : Prop :=
  LIVISI_EVENT_BUTTON_PRESSED ≠ LIVISI_EVENT_MOTION_DETECTED ∧
  LIVISI_EVENT_BUTTON_PRESSED ≠ LIVISI_EVENT_STATE_CHANGED ∧
  LIVISI_EVENT_MOTION_DETECTED ≠ LIVISI_EVENT_STATE_CHANGED.

(** The publishes a state change asks for, in the words of the
    description: one state-changed publish per populated field among
    on-state, cover data, open flag and luminance, then one
    reachability publish if the flag is populated. *)
Definition populated (fields : list Value) : list Value :=
  List.filter is_not_None fields.

Definition state_changed_publishes (event_data : LivisiEvent) : list Effect :=
  map (DispatcherSend (signal LIVISI_STATE_CHANGE (source event_data)))
      (populated [onState event_data; vrccData event_data;
                  isOpen event_data; luminance event_data]) ++
  map (DispatcherSend (signal LIVISI_REACHABILITY_CHANGE (source event_data)))
      (populated [isReachable event_data]).

(** The event a resolved button press fires on the bus. *)
Definition button_event (device_id : string) (event_data : LivisiEvent) : Effect :=
  BusFire "livisi_event"
    [ ("device_id", VStr device_id);
      ("type", VStr EVENT_BUTTON_PRESSED);
      ("button_index",
        match properties event_data !! "index" with
        | Some index => index
        | None => VInt 0
        end);
      ("press_type",
        match properties event_data !! "type" with
        | Some press_type => press_type
        | None => VStr "ShortPress"
        end) ].

Definition logged (s : World W) (effects : list Effect) : World W :=
  {| self := self s; ext := ext s; log := log s ++ effects |}.

(** The publishes of [on_close], one per known device. *)
Definition unreachable_publishes (c : Coordinator) : list Effect :=
  map (fun device_id =>
         DispatcherSend (signal LIVISI_REACHABILITY_CHANGE device_id) (VBool false))
      (elements (devices c)).

(** The dict built by [async_setup] from the config entry. *)
Definition connection_data_of (host password : string) : option (gmap string string) :=
  Some (<["password" := password]> (<["ip_address" := host]> ∅)).

(** The first step of [async_setup]: either the client has connection
    data cached and nothing is done, or a token is requested, once, with
    host and password of the config entry, and granted. *)
Inductive credentials_ensured (s : World W) : World W → Prop :=
| credentials_cached :
    falsy (livisi_connection_data (ext s)) = false →
    credentials_ensured s s
| credentials_fresh host password w :
    falsy (livisi_connection_data (ext s)) = true →
    config_entry (self s) !! CONF_HOST = Some host →
    config_entry (self s) !! CONF_PASSWORD = Some password →
    client_set_token (connection_data_of host password) (ext s) = (Return tt, w) →
    credentials_ensured s
      {| self := self s; ext := w;
         log := log s ++ [CallSetToken (connection_data_of host password)] |}.

(** The attributes [async_setup] assigns for a controller type and a
    serial number. *)
Definition configured (ctype serial : string) (c : Coordinator) : Coordinator :=
  {| config_entry := config_entry c; devices := devices c;
     capability_to_device := capability_to_device c; rooms := rooms c;
     serial_number := serial; controller_type := ctype;
     is_avatar := bool_decide (ctype = AVATAR);
     port := if decide (ctype = AVATAR) then AVATAR_PORT else CLASSIC_PORT;
     data := data c |}.

(** The statements of [async_setup] from the controller fetch on. *)
Definition fetch_and_configure : M W unit :=
  let* controller_data := call CallGetController client_get_controller in
  let* controller_type :=
    subscript "controllerType" (cd_controllerType controller_data) in
  (if decide (controller_type = AVATAR) then
     modify_self (set_port AVATAR_PORT) ;;
     modify_self (set_is_avatar true)
   else
     modify_self (set_port CLASSIC_PORT) ;;
     modify_self (set_is_avatar false)) ;;
  modify_self (set_controller_type controller_type) ;;
  let* serial := subscript "serialNumber" (cd_serialNumber controller_data) in
  modify_self (set_serial_number serial).

(** What [async_set_all_rooms] reads of one room, in the order it reads:
    the key that is missing, or the id and the configured name. *)
Definition read_room (room : Room) : string + (string * string) :=
  match room_config room with
  | None => inl "config"
  | Some available_room_config =>
      match cfg_name available_room_config with
      | None => inl "name"
      | Some name =>
          match room_id room with
          | None => inl "id"
          | Some id => inr (id, name)
          end
      end
  end.

(** The registry after the rooms were stored one after the other, up to
    the first room with a missing key. *)
Fixpoint store_rooms (response : list Room) (registry : gmap string string)
    : gmap string string :=
  match response with
  | [] => registry
  | room :: rest =>
      match read_room room with
      | inr (id, name) => store_rooms rest (<[id := name]> registry)
      | inl _ => registry
      end
  end.

(** The missing key of the first room that has one. *)
Fixpoint first_missing_key (response : list Room) : option string :=
  match response with
  | [] => None
  | room :: rest =>
      match read_room room with
      | inr _ => first_missing_key rest
      | inl key => Some key
      end
  end.

(** The event a resolved motion fires on the bus. *)
Definition motion_event (device_id : string) : Effect :=
  BusFire "livisi_event"
    [ ("device_id", VStr device_id); ("type", VStr EVENT_MOTION_DETECTED) ].

(** The attributes the poll leaves alone. *)
Definition same_but_index (c c' : Coordinator) : Prop :=
  config_entry c' = config_entry c ∧ devices c' = devices c ∧
  rooms c' = rooms c ∧ serial_number c' = serial_number c ∧
  controller_type c' = controller_type c ∧ is_avatar c' = is_avatar c ∧
  port c' = port c ∧ data c' = data c.

(** The attributes [async_set_all_rooms] leaves alone. *)
Definition same_but_rooms (c c' : Coordinator) : Prop :=
  config_entry c' = config_entry c ∧ devices c' = devices c ∧
  capability_to_device c' = capability_to_device c ∧
  serial_number c' = serial_number c ∧
  controller_type c' = controller_type c ∧ is_avatar c' = is_avatar c ∧
  port c' = port c ∧ data c' = data c.

(** The attributes [async_setup] leaves alone. *)
Definition same_but_controller (c c' : Coordinator) : Prop :=
  config_entry c' = config_entry c ∧ devices c' = devices c ∧
  capability_to_device c' = capability_to_device c ∧
  rooms c' = rooms c ∧ data c' = data c.

End Vocabulary.

(** * Properties *)

(** ** The capability index built by [async_get_devices] *)

Section Index.
Context {K : Const} {W : Type} {VC : VendorClient W}.

Lemma map_capabilities_lookup device capabilities m0 m :
  map_capabilities device capabilities m0 = Return m →
  ∀ c, m !! c = if decide (c ∈ capabilities) then dev_id device else m0 !! c.
Proof.
  revert m0. induction capabilities as [|c0 rest IH]; intros m0 Hrun c; simpl in Hrun.
  - injection Hrun as <-. rewrite decide_False; [done | apply not_elem_of_nil].
  - destruct (dev_id device) as [id|] eqn:Hid; [|discriminate].
    rewrite (IH _ Hrun c).
    destruct (decide (c ∈ rest)) as [Hin|Hnin].
    + rewrite decide_True; [done | by right].
    + destruct (decide (c = c0)) as [->|Hne].
      * rewrite lookup_insert_eq. rewrite decide_True; [done | by left].
      * rewrite lookup_insert_ne by done.
        rewrite decide_False; [done|]. by intros [->|Hin]%elem_of_cons.
Qed.

Lemma map_devices_lookup devices m0 m :
  map_devices devices m0 = Return m →
  ∀ c, m !! c = match last_declaring devices c with
                | Some device => dev_id device
                | None => m0 !! c
                end.
Proof.
  revert m0. induction devices as [|device rest IH]; intros m0 Hrun c; simpl in Hrun.
  - by injection Hrun as <-.
  - destruct (map_capabilities device _ m0) as [m1|e] eqn:Hcaps; [|discriminate].
    rewrite (IH _ Hrun c). simpl.
    destruct (last_declaring rest c); [done|].
    rewrite (map_capabilities_lookup _ _ _ _ Hcaps c).
    destruct (decide (declares device c)) as [Hd|Hd].
    + by rewrite decide_True.
    + by rewrite decide_False.
Qed.

(** A successful rebuild met an id on every device that declares a
    capability. *)
Lemma map_capabilities_id device capabilities m0 m c :
  map_capabilities device capabilities m0 = Return m →
  c ∈ capabilities → is_Some (dev_id device).
Proof.
  destruct capabilities as [|c0 rest]; intros Hrun Hin; [by apply elem_of_nil in Hin|].
  simpl in Hrun. destruct (dev_id device); [eauto | discriminate].
Qed.

Lemma map_devices_id devices m0 m device c :
  map_devices devices m0 = Return m →
  device ∈ devices → declares device c → is_Some (dev_id device).
Proof.
  revert m0. induction devices as [|d0 rest IH]; intros m0 Hrun Hin Hdecl.
  - by apply elem_of_nil in Hin.
  - simpl in Hrun.
    destruct (map_capabilities d0 _ m0) as [m1|e] eqn:Hcaps; [|discriminate].
    apply elem_of_cons in Hin as [->|Hin].
    + eapply map_capabilities_id; eauto.
    + eapply IH; eauto.
Qed.

Lemma last_declaring_Some devices c device :
  last_declaring devices c = Some device →
  ∃ i, devices !! i = Some device ∧ declares device c ∧
       ∀ j later, (i < j)%nat → devices !! j = Some later → ¬ declares later c.
Proof.
  induction devices as [|d0 rest IH]; simpl; [done|].
  destruct (last_declaring rest c) as [later|] eqn:Hrest.
  - intros [= <-]. destruct (IH eq_refl) as (i & Hi & Hdecl & Hlast).
    exists (S i). split_and!; [done | done |].
    intros [|j] l Hlt Hj; [lia|]. simpl in Hj. eapply Hlast; [|done]. lia.
  - case_decide as Hdecl; [|done]. intros [= <-].
    exists 0%nat. split_and!; [done | done |].
    intros [|j] l Hlt Hj; [lia|]. simpl in Hj. intros Hl.
    clear IH Hlt. revert j Hj. induction rest as [|d1 rest IH]; intros j Hj; [done|].
    simpl in Hrest. destruct (last_declaring rest c) eqn:Hr; [done|].
    case_decide as Hd1; [done|].
    destruct j as [|j]; simpl in Hj; [naive_solver | eauto].
Qed.

Lemma last_declaring_None devices c :
  last_declaring devices c = None ↔ ∀ device, device ∈ devices → ¬ declares device c.
Proof.
  induction devices as [|d0 rest IH]; simpl.
  - split; [|done]. intros _ d Hd. by apply elem_of_nil in Hd.
  - destruct (last_declaring rest c) as [later|] eqn:Hrest.
    + split; [done|]. intros Hall.
      apply last_declaring_Some in Hrest as (i & Hi & Hdecl & _).
      exfalso. apply (Hall later); [|done]. right. by eapply list_elem_of_lookup_2.
    + case_decide as Hdecl.
      * split; [done|]. intros Hall. exfalso. apply (Hall d0); [by left | done].
      * split; [|done]. intros _ d Hd. apply elem_of_cons in Hd as [->|Hd]; [done|].
        by apply IH.
Qed.

Lemma last_declaring_unique devices c i device :
  devices !! i = Some device → declares device c →
  (∀ j later, (i < j)%nat → devices !! j = Some later → ¬ declares later c) →
  last_declaring devices c = Some device.
Proof.
  revert i. induction devices as [|d0 rest IH]; intros i Hi Hdecl Hlast; [done|].
  simpl. destruct i as [|i]; simpl in Hi.
  - injection Hi as ->.
    assert (last_declaring rest c = None) as ->.
    { apply last_declaring_None. intros d Hd Hdd.
      apply list_elem_of_lookup_1 in Hd as [j Hj].
      apply (Hlast (S j) d); [lia | done | done]. }
    by rewrite decide_True.
  - rewrite (IH i Hi Hdecl); [done|].
    intros j later Hlt Hj. apply (Hlast (S j) later); [lia | done].
Qed.

(** What one call of [async_get_devices] does, by the answer of the
    vendor client and the outcome of the rebuild. *)
Lemma async_get_devices_run (s : World W) :
  async_get_devices s =
  match client_get_devices (ext s) with
  | (Raise e, w) =>
      (Raise e, {| self := self s; ext := w; log := log s ++ [CallGetDevices] |})
  | (Return devices, w) =>
      match map_devices devices ∅ with
      | Return m =>
          (Return devices,
           {| self := set_capability_to_device m (self s); ext := w;
              log := log s ++ [CallGetDevices] |})
      | Raise e =>
          (Raise e, {| self := self s; ext := w; log := log s ++ [CallGetDevices] |})
      end
  end.
Proof.
  unfold async_get_devices, bind, call.
  destruct (client_get_devices (ext s)) as [[devices|e] w]; [|done].
  by destruct (map_devices devices ∅).
Qed.

Lemma async_get_devices_log (s : World W) :
  log (snd (async_get_devices s)) = log s ++ [CallGetDevices].
Proof.
  rewrite async_get_devices_run.
  destruct (client_get_devices (ext s)) as [[devices|e] w]; [|done].
  by destruct (map_devices devices ∅).
Qed.

Lemma async_get_devices_raise (s s' : World W) e :
  async_get_devices s = (Raise e, s') → self s' = self s.
Proof.
  rewrite async_get_devices_run.
  destruct (client_get_devices (ext s)) as [[devices|e0] w].
  - destruct (map_devices devices ∅); [done|]. by intros [= _ <-].
  - by intros [= _ <-].
Qed.

End Index.

(** ** The poll cycle *)

Section Poll.
Context {K : Const} {W : Type} {VC : VendorClient W}.

(** C2. After a successful [async_get_devices] the method has returned
    the very list [D] the vendor client answered with, and
    [capability_to_device] holds exactly the capability ids declared
    across [D]: each is mapped to the id of a device of [D] that declares
    it, and when several devices declare the same id the last of them in
    [D] wins. *)
Theorem async_get_devices_index (s s' : World W) (D : list Device) :
  async_get_devices s = (Return D, s') →
  client_get_devices (ext s) = (Return D, ext s') ∧
  (∀ c, c ∈ dom (capability_to_device (self s')) ↔
        ∃ device, device ∈ D ∧ declares device c) ∧
  (∀ c id, capability_to_device (self s') !! c = Some id →
        ∃ device, device ∈ D ∧ declares device c ∧ dev_id device = Some id) ∧
  (∀ c i device, D !! i = Some device → declares device c →
        (∀ j later, (i < j)%nat → D !! j = Some later → ¬ declares later c) →
        is_Some (dev_id device) ∧
        capability_to_device (self s') !! c = dev_id device).
Proof.
  rewrite async_get_devices_run.
  destruct (client_get_devices (ext s)) as [[devices|e] w] eqn:Hfetch; [|done].
  destruct (map_devices devices ∅) as [m|e] eqn:Hmap; [|done].
  intros [= -> <-]; simpl.
  pose proof (map_devices_lookup _ _ _ Hmap) as Hlookup.
  assert (∀ c id, m !! c = Some id →
            ∃ device, device ∈ D ∧ declares device c ∧ dev_id device = Some id)
    as Hsome.
  { intros c id Hc. rewrite Hlookup in Hc.
    destruct (last_declaring D c) as [device|] eqn:Hlast; [|done].
    apply last_declaring_Some in Hlast as (i & Hi & Hdecl & _).
    exists device. split_and!; [by eapply list_elem_of_lookup_2 | done | done]. }
  assert (∀ c i device, D !! i = Some device → declares device c →
            (∀ j later, (i < j)%nat → D !! j = Some later → ¬ declares later c) →
            is_Some (dev_id device) ∧ m !! c = dev_id device) as Hwins.
  { intros c i device Hi Hdecl Hlast. split.
    - eapply map_devices_id; [exact Hmap | by eapply list_elem_of_lookup_2 | done].
    - rewrite Hlookup. by rewrite (last_declaring_unique _ _ _ _ Hi Hdecl Hlast). }
  split_and!; [done | | done | done].
  intros c. rewrite elem_of_dom. split.
  - intros [id Hc]. destruct (Hsome c id Hc) as (device & ? & ? & ?). eauto.
  - intros (device & Hin & Hdecl). rewrite Hlookup.
    destruct (last_declaring D c) as [winner|] eqn:Hlast.
    + apply last_declaring_Some in Hlast as (i & Hi & Hd & _).
      eapply map_devices_id; [exact Hmap | by eapply list_elem_of_lookup_2 | done].
    + exfalso. by eapply last_declaring_None.
Qed.

Lemma update_data_run (s : World W) :
  _async_update_data s =
  match async_get_devices s with
  | (Return D, s1) => (Return D, s1)
  | (Raise TokenExpiredException, s1) =>
      match refresh_token s1 with
      | (Return _, s2) => async_get_devices s2
      | (Raise e, s2) => (Raise e, s2)
      end
  | (Raise ClientConnectorError, s1) =>
      (Raise (UpdateFailed "Failed to get livisi devices from controller"
                ClientConnectorError), s1)
  | (Raise e, s1) => (Raise e, s1)
  end.
Proof.
  unfold _async_update_data, try_except.
  destruct (async_get_devices s) as [[D|e] s1]; [done|].
  by destruct e.
Qed.

Lemma refresh_token_frame (s : World W) :
  self (snd (refresh_token s)) = self s ∧
  log (snd (refresh_token s)) =
    log s ++ [CallSetToken (livisi_connection_data (ext s))].
Proof.
  unfold refresh_token, call.
  by destruct (client_set_token _ (ext s)).
Qed.

(** C1, as the code has it.  The cycle returns what the first fetch
    returns.  When the first fetch raises [TokenExpiredException] the
    token is refreshed once; if the refresh raises, that error leaves
    the cycle and nothing is retried; if it returns, the fetch runs once
    more, its list is the result of the cycle, and an error of the retry
    other than a connectivity error leaves the cycle as it is.  A
    connectivity error of the first fetch becomes [UpdateFailed], with no
    refresh and no retry; any other error of the first fetch leaves the
    cycle unchanged. *)
Theorem update_data_retry_policy (s : World W) :
  (∀ D s1, async_get_devices s = (Return D, s1) →
     _async_update_data s = (Return D, s1) ∧
     log s1 = log s ++ [CallGetDevices]) ∧
  (∀ s1, async_get_devices s = (Raise TokenExpiredException, s1) →
     let cd := livisi_connection_data (ext s1) in
     (∀ e s2, refresh_token s1 = (Raise e, s2) →
        _async_update_data s = (Raise e, s2) ∧
        log s2 = log s ++ [CallGetDevices; CallSetToken cd]) ∧
     (∀ s2, refresh_token s1 = (Return tt, s2) →
        log (snd (_async_update_data s)) =
          log s ++ [CallGetDevices; CallSetToken cd; CallGetDevices] ∧
        (∀ D s3, async_get_devices s2 = (Return D, s3) →
           _async_update_data s = (Return D, s3)) ∧
        (∀ e s3, async_get_devices s2 = (Raise e, s3) →
           e ≠ ClientConnectorError →
           _async_update_data s = (Raise e, s3)))) ∧
  (∀ s1, async_get_devices s = (Raise ClientConnectorError, s1) →
     _async_update_data s =
       (Raise (UpdateFailed "Failed to get livisi devices from controller"
                 ClientConnectorError), s1) ∧
     log s1 = log s ++ [CallGetDevices]) ∧
  (∀ e s1, async_get_devices s = (Raise e, s1) →
     e ≠ TokenExpiredException → e ≠ ClientConnectorError →
     _async_update_data s = (Raise e, s1) ∧
     log s1 = log s ++ [CallGetDevices]).
Proof.
  pose proof (async_get_devices_log s) as Hlog1.
  rewrite update_data_run.
  destruct (async_get_devices s) as [r1 s1'] eqn:Hfirst. simpl in Hlog1.
  split_and!.
  - by intros D s1 [= -> ->].
  - intros s1 [= -> ->] cd.
    pose proof (refresh_token_frame s1) as [_ Hlog2].
    rewrite Hlog1 in Hlog2. rewrite <- app_assoc in Hlog2. simpl in Hlog2.
    split.
    + intros e s2 Hrefresh. rewrite Hrefresh in *. done.
    + intros s2 Hrefresh. rewrite Hrefresh in *. simpl in Hlog2.
      split_and!.
      * rewrite async_get_devices_log, Hlog2. by rewrite <- app_assoc.
      * by intros D s3 ->.
      * by intros e s3 -> _.
  - by intros s1 [= -> ->].
  - intros e s1 [= -> ->] Htok Hconn. by destruct e.
Qed.

(** C5. A poll cycle that fails leaves every attribute of the
    coordinator, the capability index and the device snapshot among them,
    as it was before the cycle; so does each failing call of
    [async_get_devices]. *)
Theorem failed_poll_keeps_state (s s' : World W) (e : Exn) :
  _async_update_data s = (Raise e, s') ∨ async_get_devices s = (Raise e, s') →
  self s' = self s ∧
  capability_to_device (self s') = capability_to_device (self s) ∧
  data (self s') = data (self s).
Proof.
  intros Hfail.
  assert (self s' = self s) as Hself; [|by rewrite Hself].
  destruct Hfail as [Hfail|Hfail]; [|by eapply async_get_devices_raise].
  rewrite update_data_run in Hfail.
  destruct (async_get_devices s) as [[D|e1] s1] eqn:Hfirst; [done|].
  apply async_get_devices_raise in Hfirst.
  assert (match refresh_token s1 with
          | (Return _, s2) => async_get_devices s2
          | (Raise e2, s2) => (Raise e2, s2)
          end = (Raise e, s') → self s' = self s) as Hretry.
  { pose proof (refresh_token_frame s1) as [Hframe _].
    destruct (refresh_token s1) as [[[]|e2] s2]; simpl in Hframe.
    - intros Hsecond%async_get_devices_raise. congruence.
    - intros [= _ <-]. congruence. }
  destruct e1; first [by apply Hretry | injection Hfail as _ <-; done].
Qed.

End Poll.

(** ** Event dispatch *)

Lemma string_length_app (a t : string) :
  String.length (a +:+ t) = (String.length a + String.length t)%nat.
Proof.
  induction a as [|c a IH]; [done|].
  change (S (String.length (a +:+ t)) = S (String.length a + String.length t)).
  by rewrite IH.
Qed.

Lemma string_app_inj_r (a b t : string) : a +:+ t = b +:+ t → a = b.
Proof.
  revert b. induction a as [|c a IH]; intros [|d b] Heq; [done| | |].
  - apply (f_equal String.length) in Heq.
    rewrite !string_length_app in Heq. simpl in Heq. lia.
  - apply (f_equal String.length) in Heq.
    rewrite !string_length_app in Heq. simpl in Heq. lia.
  - change (String c (a +:+ t) = String d (b +:+ t)) in Heq.
    injection Heq as -> Heq. f_equal. by apply IH.
Qed.

Lemma signal_inj_event (e1 e2 source : string) :
  signal e1 source = signal e2 source → e1 = e2.
Proof. apply string_app_inj_r. Qed.

Lemma signal_inj_source (event s1 s2 : string) :
  signal event s1 = signal event s2 → s1 = s2.
Proof.
  unfold signal. intros Heq%(inj (String.append event)).
  by apply (inj (String.append "_")) in Heq.
Qed.

Section Events.
Context {K : Const} {W : Type} {VC : VendorClient W}.

Lemma logged_nil (s : World W) : logged s [] = s.
Proof. destruct s. unfold logged. simpl. by rewrite app_nil_r. Qed.

Lemma logged_app (s : World W) (l1 l2 : list Effect) :
  logged (logged s l1) l2 = logged s (l1 ++ l2).
Proof. unfold logged. simpl. by rewrite app_assoc. Qed.

Lemma dispatcher_send_run event source payload (s : World W) :
  _async_dispatcher_send event source payload s =
  (Return tt, logged s (map (DispatcherSend (signal event source))
                            (populated [payload]))).
Proof.
  unfold _async_dispatcher_send, populated. simpl.
  destruct (is_not_None payload); [done|].
  by rewrite logged_nil.
Qed.

Lemma populated_app (l1 l2 : list Value) :
  populated (l1 ++ l2) = populated l1 ++ populated l2.
Proof. apply List.filter_app. Qed.

Lemma populated_not_None (fields : list Value) (v : Value) :
  v ∈ populated fields → v ∈ fields ∧ v ≠ VNone.
Proof.
  unfold populated. rewrite !list_elem_of_In, List.filter_In.
  intros [Hin Hv]. split; [done|]. by intros ->.
Qed.

(** C4. With the three event type constants distinct, a [StateChanged]
    event is answered by publishes only: one
    state-changed publish per populated field among [onState],
    [vrccData], [isOpen] and [luminance], in that order and under the
    signal of the source, then one reachability publish if
    [isReachable] is populated; the coordinator and the outside world
    stay as they are; no publish carries [None].  An event with
    only [luminance = 42] populated gives exactly one publish, the
    state-changed one carrying 42, and none under the reachability
    signal. *)
Theorem on_data_state_changed (event_data : LivisiEvent) (s : World W) :
  event_types_distinct →
  type event_data = LIVISI_EVENT_STATE_CHANGED →
  on_data event_data s =
    (Return tt, logged s (state_changed_publishes event_data)) ∧
  (∀ topic payload,
     DispatcherSend topic payload ∈ state_changed_publishes event_data →
     payload ≠ VNone) ∧
  (onState event_data = VNone → vrccData event_data = VNone →
   isOpen event_data = VNone → isReachable event_data = VNone →
   luminance event_data = VInt 42 →
   state_changed_publishes event_data =
     [DispatcherSend (signal LIVISI_STATE_CHANGE (source event_data)) (VInt 42)] ∧
   (LIVISI_STATE_CHANGE ≠ LIVISI_REACHABILITY_CHANGE →
    ∀ payload,
      DispatcherSend (signal LIVISI_REACHABILITY_CHANGE (source event_data))
        payload ∉ state_changed_publishes event_data)).
Proof.
  intros (Hbm & Hbs & Hms) Htype. split_and!.
  - unfold on_data. rewrite Htype.
    rewrite decide_False by done. rewrite decide_False by done.
    rewrite decide_True by done.
    unfold bind. rewrite !dispatcher_send_run, !logged_app.
    unfold state_changed_publishes.
    change [onState event_data; vrccData event_data; isOpen event_data;
            luminance event_data]
      with ([onState event_data] ++ [vrccData event_data] ++
            [isOpen event_data] ++ [luminance event_data]).
    rewrite !populated_app, !map_app. by rewrite <- !app_assoc.
  - intros topic payload Hin. unfold state_changed_publishes in Hin.
    apply elem_of_app in Hin as [Hin|Hin];
      apply list_elem_of_fmap in Hin as (v & [= _ ->] & Hv);
      by apply populated_not_None in Hv as [_ ?].
  - intros Hon Hvrcc Hopen Hreach Hlum.
    assert (state_changed_publishes event_data =
            [DispatcherSend (signal LIVISI_STATE_CHANGE (source event_data))
               (VInt 42)]) as Heq.
    { unfold state_changed_publishes. by rewrite Hon, Hvrcc, Hopen, Hreach, Hlum. }
    split; [done|]. intros Hne payload. rewrite Heq.
    intros Hin%list_elem_of_singleton. injection Hin as Hsig _.
    by apply signal_inj_event in Hsig.
Qed.

(** C7. A [ButtonPressed] event whose source is a key of the capability
    index fires exactly one [livisi_event] on the bus, carrying the
    device id found, the button-pressed kind, the button index ([0] when
    the properties have none) and the press type (["ShortPress"] when the
    properties have none); a source that is no key of the index fires
    nothing and raises nothing.  Either way the coordinator is left as it
    was. *)
Theorem on_data_button_pressed (event_data : LivisiEvent) (s : World W) :
  type event_data = LIVISI_EVENT_BUTTON_PRESSED →
  (∀ device_id,
     capability_to_device (self s) !! source event_data = Some device_id →
     on_data event_data s =
       (Return tt, logged s [button_event device_id event_data])) ∧
  (capability_to_device (self s) !! source event_data = None →
     on_data event_data s = (Return tt, s)).
Proof.
  intros Htype. unfold on_data. rewrite Htype, decide_True by done.
  unfold bind, get_self. split.
  - intros device_id ->. unfold emit, logged, button_event.
    by destruct (properties event_data !! "index"),
                (properties event_data !! "type").
  - by intros ->.
Qed.

(** C10. [on_data] never raises and never changes the coordinator or the
    outside world, whatever the event; and an event whose type is none of
    the three known ones leaves the whole world as it was: nothing is
    fired on the bus and nothing is published. *)
Theorem on_data_frame (event_data : LivisiEvent) (s : World W) :
  (fst (on_data event_data s) = Return tt ∧
   self (snd (on_data event_data s)) = self s ∧
   ext (snd (on_data event_data s)) = ext s) ∧
  (type event_data ≠ LIVISI_EVENT_BUTTON_PRESSED →
   type event_data ≠ LIVISI_EVENT_MOTION_DETECTED →
   type event_data ≠ LIVISI_EVENT_STATE_CHANGED →
   on_data event_data s = (Return tt, s)).
Proof.
  split.
  - unfold on_data. repeat case_decide.
    + unfold bind, get_self.
      by destruct (capability_to_device (self s) !! source event_data).
    + unfold bind, get_self.
      by destruct (capability_to_device (self s) !! source event_data).
    + unfold bind. by rewrite !dispatcher_send_run.
    + done.
  - intros Hb Hm Hs. unfold on_data. by rewrite !decide_False by done.
Qed.

Lemma unreachable_broadcast_run (ids : list string) (s : World W) :
  for_each ids (fun device_id =>
    _async_dispatcher_send LIVISI_REACHABILITY_CHANGE device_id (VBool false)) s =
  (Return tt,
   logged s (map (fun device_id =>
               DispatcherSend (signal LIVISI_REACHABILITY_CHANGE device_id)
                 (VBool false)) ids)).
Proof.
  revert s. induction ids as [|device_id rest IH]; intros s; simpl.
  - by rewrite logged_nil.
  - unfold bind at 1. rewrite dispatcher_send_run, IH, logged_app. done.
Qed.

(** C3. [on_close] logs, after what was there, one reachability publish
    with payload [False] for each id of [self.devices] and for nothing
    else, then a single connect of the websocket, which comes after all
    the publishes and carries [self.port], the port [ws_connect] uses in
    the same state; the coordinator is left as it was. *)
Theorem on_close_broadcast_then_reconnect (s : World W) :
  log (snd (on_close s)) =
    log s ++ unreachable_publishes (self s) ++ [WebsocketConnect (port (self s))] ∧
  (∀ device_id,
     device_id ∈ devices (self s) ↔
     DispatcherSend (signal LIVISI_REACHABILITY_CHANGE device_id) (VBool false)
       ∈ unreachable_publishes (self s)) ∧
  (∀ e, e ∈ unreachable_publishes (self s) →
     ∃ device_id, device_id ∈ devices (self s) ∧
       e = DispatcherSend (signal LIVISI_REACHABILITY_CHANGE device_id) (VBool false)) ∧
  log (snd (ws_connect s)) = log s ++ [WebsocketConnect (port (self s))] ∧
  self (snd (on_close s)) = self s.
Proof.
  assert (∀ e, e ∈ unreachable_publishes (self s) →
     ∃ device_id, device_id ∈ devices (self s) ∧
       e = DispatcherSend (signal LIVISI_REACHABILITY_CHANGE device_id) (VBool false))
    as Honly.
  { intros e (device_id & -> & Hin)%list_elem_of_fmap.
    exists device_id. by rewrite <- elem_of_elements. }
  assert (on_close s =
    let '(r, w) := websocket_connect (port (self s)) (ext s) in
    (r, {| self := self s; ext := w;
           log := log s ++ unreachable_publishes (self s) ++
                  [WebsocketConnect (port (self s))] |})) as Hrun.
  { unfold on_close, bind at 1, get_self.
    unfold bind at 1. rewrite unreachable_broadcast_run.
    unfold bind, call, logged, unreachable_publishes. simpl.
    destruct (websocket_connect (port (self s)) (ext s)).
    by rewrite <- app_assoc. }
  split_and!.
  - rewrite Hrun. by destruct (websocket_connect (port (self s)) (ext s)).
  - intros device_id. split.
    + intros Hin. apply list_elem_of_fmap. exists device_id.
      by rewrite elem_of_elements.
    + intros (d & Hd & [= Hsig])%Honly.
      by apply signal_inj_source in Hsig as ->.
  - done.
  - unfold ws_connect, bind, get_self, call.
    by destruct (websocket_connect (port (self s)) (ext s)).
  - rewrite Hrun. by destruct (websocket_connect (port (self s)) (ext s)).
Qed.

End Events.

(** ** Setup, state query and room names *)

Section Registry.
Context {K : Const} {W : Type} {VC : VendorClient W}.

Lemma async_setup_configure (s1 : World W) controller_data w :
  client_get_controller (ext s1) = (controller_data, w) →
  fetch_and_configure s1 =
  match controller_data with
  | Raise e =>
      (Raise e, {| self := self s1; ext := w; log := log s1 ++ [CallGetController] |})
  | Return cd =>
      match cd_controllerType cd, cd_serialNumber cd with
      | None, _ =>
          (Raise (KeyError "controllerType"),
           {| self := self s1; ext := w; log := log s1 ++ [CallGetController] |})
      | Some ctype, None =>
          (Raise (KeyError "serialNumber"),
           {| self := configured ctype (serial_number (self s1)) (self s1);
              ext := w; log := log s1 ++ [CallGetController] |})
      | Some ctype, Some serial =>
          (Return tt,
           {| self := configured ctype serial (self s1);
              ext := w; log := log s1 ++ [CallGetController] |})
      end
  end.
Proof.
  intros Hfetch. unfold fetch_and_configure, bind, call. rewrite Hfetch.
  destruct controller_data as [cd|e]; [|done]. simpl.
  destruct (cd_controllerType cd) as [ctype|]; [|done]. simpl.
  unfold configured.
  destruct (decide (ctype = AVATAR)) as [Hct|Hct]; simpl;
    destruct (cd_serialNumber cd) as [serial|]; simpl;
    first [by rewrite bool_decide_eq_true_2 | by rewrite bool_decide_eq_false_2].
Qed.

Lemma async_setup_cached (s : World W) :
  falsy (livisi_connection_data (ext s)) = false →
  async_setup s = fetch_and_configure s.
Proof.
  intros Hcached. unfold async_setup. unfold bind at 1. unfold read_ext.
  rewrite Hcached. done.
Qed.

Lemma async_setup_authenticate (s : World W) :
  falsy (livisi_connection_data (ext s)) = true →
  async_setup s =
  match config_entry (self s) !! CONF_HOST, config_entry (self s) !! CONF_PASSWORD with
  | None, _ => (Raise (KeyError CONF_HOST), s)
  | Some _, None => (Raise (KeyError CONF_PASSWORD), s)
  | Some host, Some password =>
      match client_set_token (connection_data_of host password) (ext s) with
      | (Return _, w) =>
          fetch_and_configure
            {| self := self s; ext := w;
               log := log s ++ [CallSetToken (connection_data_of host password)] |}
      | (Raise e, w) =>
          (Raise e,
           {| self := self s; ext := w;
              log := log s ++ [CallSetToken (connection_data_of host password)] |})
      end
  end.
Proof.
  intros Hfalsy. unfold async_setup. unfold bind at 1. unfold read_ext.
  rewrite Hfalsy. unfold bind at 1. unfold bind at 1. unfold get_self.
  unfold bind at 1.
  destruct (config_entry (self s) !! CONF_HOST) as [host|]; [|done]. simpl.
  unfold bind at 1.
  destruct (config_entry (self s) !! CONF_PASSWORD) as [password|]; [|done]. simpl.
  unfold call, connection_data_of.
  by destruct (client_set_token _ (ext s)) as [[[]|e] w].
Qed.

(** C8. When [async_setup] returns, the credentials were ensured (cached,
    or one token request that was granted), the controller data were
    fetched once, and the coordinator stores their controller type and
    serial number, with the avatar port and [is_avatar = True] when the
    type is [AVATAR], the classic port and [is_avatar = False] otherwise.
    When the token request raises, or when the controller fetch raises,
    [async_setup] raises the same error after that single call. *)
Theorem async_setup_spec (s : World W) :
  (∀ s', async_setup s = (Return tt, s') →
     ∃ s1 controller_data ctype serial,
       credentials_ensured s s1 ∧
       client_get_controller (ext s1) = (Return controller_data, ext s') ∧
       log s' = log s1 ++ [CallGetController] ∧
       cd_controllerType controller_data = Some ctype ∧
       cd_serialNumber controller_data = Some serial ∧
       controller_type (self s') = ctype ∧
       serial_number (self s') = serial ∧
       (ctype = AVATAR →
          port (self s') = AVATAR_PORT ∧ is_avatar (self s') = true) ∧
       (ctype ≠ AVATAR →
          port (self s') = CLASSIC_PORT ∧ is_avatar (self s') = false)) ∧
  (∀ host password e w,
     falsy (livisi_connection_data (ext s)) = true →
     config_entry (self s) !! CONF_HOST = Some host →
     config_entry (self s) !! CONF_PASSWORD = Some password →
     client_set_token (connection_data_of host password) (ext s) = (Raise e, w) →
     async_setup s =
       (Raise e,
        {| self := self s; ext := w;
           log := log s ++ [CallSetToken (connection_data_of host password)] |})) ∧
  (∀ s1 e w,
     credentials_ensured s s1 →
     client_get_controller (ext s1) = (Raise e, w) →
     async_setup s =
       (Raise e,
        {| self := self s; ext := w; log := log s1 ++ [CallGetController] |})).
Proof.
  assert (∀ s1, credentials_ensured s s1 →
            async_setup s = fetch_and_configure s1 ∧ self s1 = self s) as Hensured.
  { intros s1 [Hcached|host password w Hfalsy Hhost Hpass Htoken].
    - by rewrite async_setup_cached.
    - rewrite async_setup_authenticate by done. by rewrite Hhost, Hpass, Htoken. }
  assert (∀ s1 s', fetch_and_configure s1 = (Return tt, s') →
     ∃ controller_data ctype serial,
       client_get_controller (ext s1) = (Return controller_data, ext s') ∧
       log s' = log s1 ++ [CallGetController] ∧
       cd_controllerType controller_data = Some ctype ∧
       cd_serialNumber controller_data = Some serial ∧
       self s' = configured ctype serial (self s1)) as Hconfigure.
  { intros s1 s'.
    destruct (client_get_controller (ext s1)) as [r w] eqn:Hfetch.
    rewrite (async_setup_configure _ _ _ Hfetch).
    destruct r as [cd|e]; [|done].
    destruct (cd_controllerType cd) as [ctype|] eqn:Hct; [|done].
    destruct (cd_serialNumber cd) as [serial|] eqn:Hsn; [|done].
    intros [= <-]. by exists cd, ctype, serial. }
  split_and!.
  - intros s' Hrun.
    assert (∃ s1, credentials_ensured s s1 ∧
                  fetch_and_configure s1 = (Return tt, s')) as (s1 & Hs1 & Htail).
    { destruct (falsy (livisi_connection_data (ext s))) eqn:Hfalsy.
      - rewrite async_setup_authenticate in Hrun by done.
        destruct (config_entry (self s) !! CONF_HOST) as [host|] eqn:Hhost; [|done].
        destruct (config_entry (self s) !! CONF_PASSWORD) as [password|] eqn:Hpass;
          [|done].
        destruct (client_set_token _ (ext s)) as [[[]|e] w] eqn:Htoken; [|done].
        eexists. split; [|exact Hrun]. by eapply credentials_fresh.
      - rewrite async_setup_cached in Hrun by done.
        exists s. split; [by constructor | done]. }
    destruct (Hconfigure _ _ Htail) as (cd & ctype & serial & ? & ? & ? & ? & Hself).
    exists s1, cd, ctype, serial. rewrite Hself. simpl.
    split_and!; try done.
    + intros Heq. by rewrite decide_True, bool_decide_eq_true_2.
    + intros Hne. by rewrite decide_False, bool_decide_eq_false_2.
  - intros host password e w Hfalsy Hhost Hpass Htoken.
    rewrite async_setup_authenticate by done. by rewrite Hhost, Hpass, Htoken.
  - intros s1 e w Hs1 Hfetch.
    destruct (Hensured _ Hs1) as [-> <-].
    by rewrite (async_setup_configure _ _ _ Hfetch).
Qed.

(** C6. [async_get_device_state capability key] asks the vendor client
    once, for the capability without its first character; an error of
    the client leaves the method as it is; an absent answer gives [None];
    otherwise the result is the ["value"] of the entry stored at [key],
    and [None] when the answer has no entry at [key] or the entry has no
    value.  The coordinator is not changed. *)
Theorem async_get_device_state_spec (capability key : string) (s : World W) :
  let query := strip_prefix capability in
  (∀ first rest, capability = String first rest → query = rest) ∧
  (capability = "" → query = "") ∧
  async_get_device_state capability key s =
    ( match fst (client_get_device_state query (ext s)) with
      | Raise e => Raise e
      | Return None => Return VNone
      | Return (Some response) =>
          Return match response !! key with
                 | Some entry =>
                     match entry !! "value" with
                     | Some value => value
                     | None => VNone
                     end
                 | None => VNone
                 end
      end,
      {| self := self s;
         ext := snd (client_get_device_state query (ext s));
         log := log s ++ [CallGetDeviceState query] |} ).
Proof.
  intros query. split_and!.
  - by intros first rest ->.
  - by intros ->.
  - unfold async_get_device_state, bind, call. fold query.
    destruct (client_get_device_state query (ext s)) as [[[response|]|e] w];
      simpl; [|done|done].
    destruct (response !! key) as [entry|]; simpl; [|by rewrite lookup_empty].
    by destruct (entry !! "value").
Qed.

(** C9. [get_room_name] returns the name the room registry holds for the
    location of the device; it returns [None] when the device has no
    location and when the location is no key of the registry; and its
    result depends on the coordinator through the registry only, so two
    calls with the same device and the same registry agree. *)
Theorem get_room_name_spec (c : Coordinator) (device : Device) :
  (∀ location name,
     dev_location device = Some location → rooms c !! location = Some name →
     get_room_name c device = Some name) ∧
  (dev_location device = None → get_room_name c device = None) ∧
  (∀ location,
     dev_location device = Some location → rooms c !! location = None →
     get_room_name c device = None) ∧
  (∀ c', rooms c' = rooms c → get_room_name c' device = get_room_name c device).
Proof.
  unfold get_room_name. split_and!.
  - by intros location name -> ->.
  - by intros ->.
  - by intros location -> ->.
  - by intros c' ->.
Qed.

End Registry.

(** ** The properties on scripted runs *)

Section Runs.
Import Scripted.
#[local] Existing Instance Scripted.const.

(** C1 as claimed fails where the retry fails: with a token
    that is refused before and after the refresh, the cycle ends with the
    [TokenExpiredException] of the retry, not with [UpdateFailed]. *)
Ltac decided := apply (bool_decide_unpack _); vm_compute; exact I.
Ltac refuted := apply (bool_decide_eq_false_1 _); vm_compute; reflexivity.

Lemma retry_failure_is_not_wrapped :
  ∃ s1 s2 s3,
    async_get_devices expired_twice = (Raise TokenExpiredException, s1) ∧
    refresh_token s1 = (Return tt, s2) ∧
    async_get_devices s2 = (Raise TokenExpiredException, s3) ∧
    _async_update_data expired_twice = (Raise TokenExpiredException, s3) ∧
    ∀ msg cause s', _async_update_data expired_twice ≠ (Raise (UpdateFailed msg cause), s').
Proof.
  exists (snd (async_get_devices expired_twice)).
  exists (snd (refresh_token (snd (async_get_devices expired_twice)))).
  exists (snd (_async_update_data expired_twice)).
  split_and!; try (vm_compute; reflexivity).
  intros msg cause s' Heq. apply (f_equal fst) in Heq. vm_compute in Heq. discriminate.
Qed.

Lemma update_data_retry_policy_witness :
  _async_update_data expired_then_answered =
    (Return [d1; d2], snd (_async_update_data expired_then_answered)) ∧
  log (snd (_async_update_data expired_then_answered)) =
    [CallGetDevices;
     CallSetToken (Some {[ "ip_address" := "192.168.0.2"; "password" := "secret" ]});
     CallGetDevices].
Proof.
  destruct (update_data_retry_policy expired_then_answered) as (_ & Hexpired & _ & _).
  assert (async_get_devices expired_then_answered =
          (Raise TokenExpiredException,
           snd (async_get_devices expired_then_answered))) as Hfirst
    by (vm_compute; reflexivity).
  destruct (Hexpired _ Hfirst) as [_ Hrefreshed].
  assert (refresh_token (snd (async_get_devices expired_then_answered)) =
          (Return tt,
           snd (refresh_token (snd (async_get_devices expired_then_answered)))))
    as Hrefresh by (vm_compute; reflexivity).
  destruct (Hrefreshed _ Hrefresh) as (Hlog & Hreturn & _).
  split.
  - apply Hreturn. vm_compute. reflexivity.
  - rewrite Hlog. vm_compute. reflexivity.
Defined.

Lemma async_get_devices_index_witness :
  async_get_devices answered = (Return [d1; d2], snd (async_get_devices answered)) ∧
  capability_to_device (self (snd (async_get_devices answered))) !! "c2" = Some "d2" ∧
  capability_to_device (self (snd (async_get_devices answered))) !! "c1" = Some "d1".
Proof.
  assert (async_get_devices answered =
          (Return [d1; d2], snd (async_get_devices answered))) as Hrun
    by (vm_compute; reflexivity).
  destruct (async_get_devices_index _ _ _ Hrun) as (_ & _ & _ & Hwins).
  split_and!.
  - exact Hrun.
  - apply (Hwins "c2" 1%nat d2); [reflexivity | decided |].
    intros [|[|[|j]]] later Hlt Hj; solve [lia | discriminate Hj].
  - apply (Hwins "c1" 0%nat d1); [reflexivity | decided |].
    intros [|[|[|j]]] later Hlt Hj; try solve [lia | discriminate Hj].
    injection Hj as <-. refuted.
Defined.

Lemma failed_poll_keeps_state_witness :
  _async_update_data unreachable_controller =
    (Raise (UpdateFailed "Failed to get livisi devices from controller"
              ClientConnectorError),
     snd (_async_update_data unreachable_controller)) ∧
  self (snd (_async_update_data unreachable_controller)) = polled.
Proof.
  assert (_async_update_data unreachable_controller =
    (Raise (UpdateFailed "Failed to get livisi devices from controller"
              ClientConnectorError),
     snd (_async_update_data unreachable_controller))) as Hfail
    by (vm_compute; reflexivity).
  split; [exact Hfail|].
  destruct (failed_poll_keeps_state _ _ _ (or_introl Hfail)) as (Hself & _ & _).
  exact Hself.
Defined.

Lemma on_data_state_changed_witness :
  log (snd (on_data luminance_42 idle)) =
    [DispatcherSend "livisi_state_change_c1" (VInt 42)].
Proof.
  assert (event_types_distinct) as Hdistinct by (split_and!; discriminate).
  assert (type luminance_42 = LIVISI_EVENT_STATE_CHANGED) as Htype by reflexivity.
  destruct (on_data_state_changed luminance_42 idle Hdistinct Htype)
    as (Hrun & _ & Honly).
  destruct (Honly eq_refl eq_refl eq_refl eq_refl eq_refl) as [Hpublishes _].
  rewrite Hrun. simpl. rewrite Hpublishes. reflexivity.
Defined.

Lemma on_data_button_pressed_witness :
  on_data long_press idle =
    (Return tt,
     logged idle
       [BusFire "livisi_event"
          [("device_id", VStr "d1"); ("type", VStr "button_pressed");
           ("button_index", VInt 2); ("press_type", VStr "LongPress")]]).
Proof.
  assert (type long_press = LIVISI_EVENT_BUTTON_PRESSED) as Htype by reflexivity.
  destruct (on_data_button_pressed long_press idle Htype) as [Hresolved _].
  rewrite (Hresolved "d1"); [|vm_compute; reflexivity].
  vm_compute. reflexivity.
Defined.

Lemma on_data_frame_witness :
  on_data (event "ConfigChanged" "c1") idle = (Return tt, idle).
Proof.
  destruct (on_data_frame (event "ConfigChanged" "c1") idle) as [_ Hunknown].
  apply Hunknown; discriminate.
Defined.

Lemma on_close_broadcast_then_reconnect_witness :
  log (snd (on_close
    (start (set_port 9090 (__init__ ∅)) (script [] [])))) = [WebsocketConnect 9090].
Proof.
  destruct (on_close_broadcast_then_reconnect
              (start (set_port 9090 (__init__ ∅)) (script [] []))) as (Hlog & _).
  rewrite Hlog. vm_compute. reflexivity.
Defined.

Lemma async_setup_spec_witness :
  async_setup idle = (Return tt, snd (async_setup idle)) ∧
  port (self (snd (async_setup idle))) = 9090 ∧
  is_avatar (self (snd (async_setup idle))) = true ∧
  controller_type (self (snd (async_setup idle))) = "Avatar" ∧
  serial_number (self (snd (async_setup idle))) = "914100001".
Proof.
  assert (async_setup idle = (Return tt, snd (async_setup idle))) as Hrun
    by (vm_compute; reflexivity).
  split; [exact Hrun|].
  destruct (async_setup_spec idle) as (Hsuccess & _ & _).
  destruct (Hsuccess _ Hrun)
    as (s1 & cd & ctype & serial & Hs1 & Hfetch & _ & Hct & Hsn & <- & <- & Havatar & _).
  assert (controller_type (self (snd (async_setup idle))) = "Avatar") as Htype
    by (vm_compute; reflexivity).
  destruct (Havatar Htype) as [-> ->].
  split_and!; [reflexivity | reflexivity | exact Htype | vm_compute; reflexivity].
Defined.

Lemma async_get_device_state_spec_witness :
  log (snd (async_get_device_state "/1a2b" "onState" idle)) = [CallGetDeviceState "1a2b"] ∧
  fst (async_get_device_state "/1a2b" "onState" idle) = Return VNone.
Proof.
  destruct (async_get_device_state_spec "/1a2b" "onState" idle) as (Hstrip & _ & Hrun).
  rewrite Hrun, (Hstrip _ _ eq_refl). split; reflexivity.
Defined.

(** [async_set_all_rooms] on a fresh coordinator stores the kitchen, and the
    room of [d1] is then found. *)
Example async_set_all_rooms_kitchen :
  let s := snd (async_set_all_rooms (start (__init__ ∅) (script [] []))) in
  rooms (self s) = {[ "r1" := "Kitchen" ]} ∧
  log s = [CallGetAllRooms] ∧
  get_room_name (self s) d1 = Some "Kitchen".
Proof. vm_compute. done. Qed.

Lemma get_room_name_spec_witness :
  get_room_name polled d1 = Some "Kitchen" ∧ get_room_name polled d2 = None.
Proof.
  destruct (get_room_name_spec polled d1) as (Hknown & _).
  destruct (get_room_name_spec polled d2) as (_ & Hnone & _).
  split.
  - apply (Hknown "r1"); [reflexivity | vm_compute; reflexivity].
  - apply Hnone. reflexivity.
Defined.

End Runs.

(** * Further properties of the methods *)

(** ** Polling *)

Section PollMore.
Context {K : Const} {W : Type} {VC : VendorClient W}.

Lemma map_capabilities_Return device capabilities m0 :
  (capabilities ≠ [] → is_Some (dev_id device)) →
  ∃ m, map_capabilities device capabilities m0 = Return m.
Proof.
  revert m0. induction capabilities as [|c rest IH]; intros m0 Hid; simpl; [eauto|].
  destruct (Hid ltac:(done)) as [id Hsome]. rewrite Hsome.
  apply IH. intros _. by rewrite Hsome.
Qed.

Lemma map_capabilities_Raise device capabilities m0 e :
  map_capabilities device capabilities m0 = Raise e →
  e = KeyError "id" ∧ capabilities ≠ [] ∧ dev_id device = None.
Proof.
  revert m0. induction capabilities as [|c rest IH]; intros m0; simpl; [done|].
  destruct (dev_id device) as [id|] eqn:Hid.
  - intros (_ & _ & ?)%IH. done.
  - by intros [= <-].
Qed.

Lemma map_devices_Return devices m0 :
  (∀ device c, device ∈ devices → declares device c → is_Some (dev_id device)) →
  ∃ m, map_devices devices m0 = Return m.
Proof.
  revert m0. induction devices as [|d0 rest IH]; intros m0 Hids; simpl; [eauto|].
  destruct (map_capabilities_Return d0 (default [] (dev_capabilities d0)) m0)
    as [m1 ->].
  { intros Hne. destruct (default [] (dev_capabilities d0)) as [|c l] eqn:Hcaps; [done|].
    apply (Hids d0 c); [by left|]. unfold declares. rewrite Hcaps. by left. }
  apply IH. intros device c Hin. apply Hids. by right.
Qed.

Lemma map_devices_Raise devices m0 e :
  map_devices devices m0 = Raise e →
  e = KeyError "id" ∧
  ∃ device c, device ∈ devices ∧ declares device c ∧ dev_id device = None.
Proof.
  revert m0. induction devices as [|d0 rest IH]; intros m0; simpl; [done|].
  destruct (map_capabilities d0 _ m0) as [m1|e1] eqn:Hcaps.
  - intros (-> & device & c & Hin & ? & ?)%IH. split; [done|].
    exists device, c. split_and!; [by right | done | done].
  - intros [= <-]. apply map_capabilities_Raise in Hcaps as (-> & Hne & Hid).
    split; [done|].
    destruct (default [] (dev_capabilities d0)) as [|c l] eqn:Hdef; [done|].
    exists d0, c. split_and!; [by left | | done].
    unfold declares. rewrite Hdef. by left.
Qed.

(** X1. When the vendor client answers with a list, [async_get_devices]
    returns it exactly when every device that declares a capability has an
    id (a device without id and without capabilities does no harm);
    otherwise it raises [KeyError "id"] after the one fetch and leaves the
    coordinator, the old index included, as it was. *)
Theorem async_get_devices_ids (s : World W) (D : list Device) (w : W) :
  client_get_devices (ext s) = (Return D, w) →
  (fst (async_get_devices s) = Return D ↔
   ∀ device c, device ∈ D → declares device c → is_Some (dev_id device)) ∧
  (fst (async_get_devices s) ≠ Return D →
   async_get_devices s =
     (Raise (KeyError "id"),
      {| self := self s; ext := w; log := log s ++ [CallGetDevices] |})).
Proof.
  intros Hfetch. rewrite async_get_devices_run, Hfetch.
  destruct (map_devices D ∅) as [m|e] eqn:Hmap; simpl.
  - split; [|done]. split; [|done]. intros _ device c Hin Hdecl.
    by eapply map_devices_id.
  - apply map_devices_Raise in Hmap as (-> & device & c & Hin & Hdecl & Hid).
    split; [|done]. split; [done|]. intros Hids.
    destruct (Hids device c Hin Hdecl) as [id Hsome]. congruence.
Qed.

Lemma set_capability_to_device_same (c : Coordinator) m :
  same_but_index c (set_capability_to_device m c).
Proof. by repeat split. Qed.

Lemma same_but_index_refl (c : Coordinator) : same_but_index c c.
Proof. by repeat split. Qed.

Lemma same_but_index_trans (c1 c2 c3 : Coordinator) :
  same_but_index c1 c2 → same_but_index c2 c3 → same_but_index c1 c3.
Proof. unfold same_but_index. intros H12 H23. destruct_and!. split_and!; congruence. Qed.

Lemma async_get_devices_same (s : World W) :
  same_but_index (self s) (self (snd (async_get_devices s))).
Proof.
  rewrite async_get_devices_run.
  destruct (client_get_devices (ext s)) as [[D|e] w]; [|apply same_but_index_refl].
  destruct (map_devices D ∅);
    [apply set_capability_to_device_same | apply same_but_index_refl].
Qed.

(** X2. A poll cycle, however it ends, changes no attribute of the
    coordinator but [capability_to_device]: config entry, known devices,
    room registry, serial number, controller type, avatar flag, port and
    snapshot are what they were. *)
Theorem update_data_touches_index_only (s : World W) :
  same_but_index (self s) (self (snd (_async_update_data s))).
Proof.
  rewrite update_data_run.
  pose proof (async_get_devices_same s) as Hfirst.
  destruct (async_get_devices s) as [[D|e] s1]; [done|]. simpl in Hfirst.
  destruct e; try done.
  pose proof (refresh_token_frame s1) as [Hframe _].
  destruct (refresh_token s1) as [[[]|e] s2]; simpl in Hframe.
  - eapply same_but_index_trans; [exact Hfirst|].
    rewrite <- Hframe. apply async_get_devices_same.
  - simpl. by rewrite Hframe.
Qed.

(** X3. A poll cycle asks the vendor client for the device list once or
    twice and for a token at most once, in this order: a fetch; or a
    fetch and a token refresh that is refused; or a fetch, a granted
    refresh and a second fetch.  Anything but a single fetch happens only
    after the first fetch raised [TokenExpiredException]. *)
Theorem update_data_calls (s : World W) :
  ∃ calls, log (snd (_async_update_data s)) = log s ++ calls ∧
    (calls = [CallGetDevices] ∨
     fst (async_get_devices s) = Raise TokenExpiredException ∧
     ∃ cd, (calls = [CallGetDevices; CallSetToken cd] ∧
            ∃ e, fst (_async_update_data s) = Raise e) ∨
           calls = [CallGetDevices; CallSetToken cd; CallGetDevices]).
Proof.
  rewrite update_data_run.
  pose proof (async_get_devices_log s) as Hlog1.
  destruct (async_get_devices s) as [[D|e] s1]; simpl in Hlog1; [eauto|].
  destruct e; eauto.
  pose proof (refresh_token_frame s1) as [_ Hlog2]. rewrite Hlog1 in Hlog2.
  rewrite <- app_assoc in Hlog2. simpl in Hlog2.
  destruct (refresh_token s1) as [[[]|e] s2]; simpl in Hlog2.
  - eexists. split; [|right; split; [done|]; eexists; right; done].
    rewrite async_get_devices_log, Hlog2. by rewrite <- app_assoc.
  - eexists. split; [exact Hlog2|]. right. split; [done|]. eauto.
Qed.

Lemma update_data_rebuilt (s s' : World W) (D : list Device) :
  _async_update_data s = (Return D, s') →
  map_devices D ∅ = Return (capability_to_device (self s')).
Proof.
  assert (∀ s0, async_get_devices s0 = (Return D, s') →
            map_devices D ∅ = Return (capability_to_device (self s'))) as Hone.
  { intros s0. rewrite async_get_devices_run.
    destruct (client_get_devices (ext s0)) as [[D0|e] w]; [|done].
    destruct (map_devices D0 ∅) as [m|e] eqn:Hmap; [|done].
    by intros [= <- <-]. }
  rewrite update_data_run.
  destruct (async_get_devices s) as [[D1|e] s1] eqn:Hfirst.
  - intros [= -> ->]. eauto.
  - destruct e; try done.
    destruct (refresh_token s1) as [[[]|e] s2]; [|done]. apply Hone.
Qed.

(** X4. Whenever a poll cycle returns a device list, with or without a
    token refresh on the way, the capability index agrees with the list
    returned: a capability is a key of the index exactly when a device of
    the list declares it, and its value is the id of the last such
    device. *)
Theorem update_data_index_consistent (s s' : World W) (D : list Device) :
  _async_update_data s = (Return D, s') →
  (∀ c, capability_to_device (self s') !! c = None ↔
        ∀ device, device ∈ D → ¬ declares device c) ∧
  (∀ c i device, D !! i = Some device → declares device c →
        (∀ j later, (i < j)%nat → D !! j = Some later → ¬ declares later c) →
        is_Some (dev_id device) ∧
        capability_to_device (self s') !! c = dev_id device).
Proof.
  intros Hmap%update_data_rebuilt.
  pose proof (map_devices_lookup _ _ _ Hmap) as Hlookup. split.
  - intros c. rewrite Hlookup, <- last_declaring_None.
    destruct (last_declaring D c) as [device|] eqn:Hlast; [|by rewrite lookup_empty].
    split; [|done]. intros Hnone.
    apply last_declaring_Some in Hlast as (i & Hi & Hdecl & _).
    assert (is_Some (dev_id device)) as [id Hid]; [|congruence].
    eapply map_devices_id; [exact Hmap | by eapply list_elem_of_lookup_2 | done].
  - intros c i device Hi Hdecl Hlast. split.
    + eapply map_devices_id; [exact Hmap | by eapply list_elem_of_lookup_2 | done].
    + by rewrite Hlookup, (last_declaring_unique _ _ _ _ Hi Hdecl Hlast).
Qed.

(** X5. After a poll cycle that returned a device list, a [ButtonPressed]
    event from a capability that a device of the list declares fires one
    bus event, with the id of the last such device; an event from a
    capability that no device of the list declares fires nothing, whatever
    the index held before the cycle. *)
Theorem button_after_poll (s s' : World W) (D : list Device)
    (event_data : LivisiEvent) :
  _async_update_data s = (Return D, s') →
  type event_data = LIVISI_EVENT_BUTTON_PRESSED →
  (∀ i device, D !! i = Some device → declares device (source event_data) →
     (∀ j later, (i < j)%nat → D !! j = Some later →
        ¬ declares later (source event_data)) →
     ∃ device_id, dev_id device = Some device_id ∧
       on_data event_data s' =
         (Return tt, logged s' [button_event device_id event_data])) ∧
  ((∀ device, device ∈ D → ¬ declares device (source event_data)) →
     on_data event_data s' = (Return tt, s')).
Proof.
  intros Hmap%update_data_rebuilt Htype.
  pose proof (map_devices_lookup _ _ _ Hmap (source event_data)) as Hlookup.
  unfold on_data. rewrite Htype, decide_True by done.
  unfold bind, get_self. split.
  - intros i device Hi Hdecl Hlast.
    rewrite (last_declaring_unique _ _ _ _ Hi Hdecl Hlast) in Hlookup.
    destruct (map_devices_id _ _ _ device (source event_data) Hmap)
      as [device_id Hid]; [by eapply list_elem_of_lookup_2 | done |].
    exists device_id. split; [done|]. rewrite Hlookup, Hid.
    unfold emit, logged, button_event.
    by destruct (properties event_data !! "index"),
                (properties event_data !! "type").
  - intros Hnone%last_declaring_None. rewrite Hnone, lookup_empty in Hlookup.
    by rewrite Hlookup.
Qed.

End PollMore.

(** ** The room registry *)

Section RoomsMore.
Context {K : Const} {W : Type} {VC : VendorClient W}.

Lemma set_rooms_same (s : World W) :
  {| self := set_rooms (rooms (self s)) (self s); ext := ext s; log := log s |} = s.
Proof. destruct s as [[] w l]. reflexivity. Qed.

Lemma rooms_loop_run (response : list Room) (s : World W) :
  for_each response (fun available_room =>
    let* available_room_config := subscript "config" (room_config available_room) in
    let* name := subscript "name" (cfg_name available_room_config) in
    let* id := subscript "id" (room_id available_room) in
    modify_self (fun c => set_rooms (<[id := name]> (rooms c)) c)) s =
  ( match first_missing_key response with
    | Some key => Raise (KeyError key)
    | None => Return tt
    end,
    {| self := set_rooms (store_rooms response (rooms (self s))) (self s);
       ext := ext s; log := log s |} ).
Proof.
  revert s. induction response as [|room rest IH]; intros s; simpl.
  - unfold ret. by rewrite set_rooms_same.
  - unfold bind at 1. unfold bind at 1. unfold read_room.
    destruct (room_config room) as [cfg|]; simpl; [|by rewrite set_rooms_same].
    unfold bind at 1.
    destruct (cfg_name cfg) as [name|]; simpl; [|by rewrite set_rooms_same].
    unfold bind at 1.
    destruct (room_id room) as [id|]; simpl; [|by rewrite set_rooms_same].
    by rewrite IH.
Qed.

Lemma async_set_all_rooms_run (s : World W) :
  async_set_all_rooms s =
  match client_get_all_rooms (ext s) with
  | (Raise e, w) =>
      (Raise e, {| self := self s; ext := w; log := log s ++ [CallGetAllRooms] |})
  | (Return response, w) =>
      ( match first_missing_key response with
        | Some key => Raise (KeyError key)
        | None => Return tt
        end,
        {| self := set_rooms (store_rooms response (rooms (self s))) (self s);
           ext := w; log := log s ++ [CallGetAllRooms] |} )
  end.
Proof.
  unfold async_set_all_rooms. unfold bind at 1. unfold call.
  destruct (client_get_all_rooms (ext s)) as [[response|e] w]; [|done].
  by rewrite rooms_loop_run.
Qed.

Lemma read_room_id (room : Room) id name :
  read_room room = inr (id, name) → room_id room = Some id.
Proof.
  unfold read_room. destruct (room_config room) as [cfg|]; [|done].
  destruct (cfg_name cfg); [|done]. destruct (room_id room); [|done].
  by intros [= -> _].
Qed.

Lemma store_rooms_other (response : list Room) (m : gmap string string) k :
  (∀ room, room ∈ response → room_id room ≠ Some k) →
  store_rooms response m !! k = m !! k.
Proof.
  revert m. induction response as [|room rest IH]; intros m Hother; simpl; [done|].
  destruct (read_room room) as [key|[id name]] eqn:Hread; [done|].
  rewrite IH by (intros r Hr; apply Hother; by right).
  apply lookup_insert_ne. intros ->.
  apply (Hother room); [by left|]. by eapply read_room_id.
Qed.

Lemma store_rooms_last (response : list Room) (m : gmap string string) i room id name :
  first_missing_key response = None →
  response !! i = Some room → read_room room = inr (id, name) →
  (∀ j later, (i < j)%nat → response !! j = Some later → room_id later ≠ Some id) →
  store_rooms response m !! id = Some name.
Proof.
  revert m i. induction response as [|r0 rest IH]; intros m i Hall Hi Hread Hlast;
    [done|].
  simpl in Hall |- *. destruct i as [|i]; simpl in Hi.
  - injection Hi as ->. rewrite Hread.
    rewrite store_rooms_other; [apply lookup_insert_eq|].
    intros r [j Hj]%list_elem_of_lookup_1. apply (Hlast (S j) r); [lia | done].
  - destruct (read_room r0) as [key|[id0 name0]]; [done|].
    apply (IH _ i); [done | done | done |].
    intros j later Hlt Hj. apply (Hlast (S j) later); [lia | done].
Qed.

Lemma store_rooms_dom (response : list Room) (m : gmap string string) :
  dom m ⊆ dom (store_rooms response m).
Proof.
  revert m. induction response as [|room rest IH]; intros m; simpl; [done|].
  destruct (read_room room) as [key|[id name]]; [done|].
  etrans; [|apply IH]. rewrite dom_insert_L. set_solver.
Qed.

Lemma first_missing_key_None (response : list Room) :
  (∀ room, room ∈ response → ∃ entry, read_room room = inr entry) →
  first_missing_key response = None.
Proof.
  induction response as [|room rest IH]; intros Hall; simpl; [done|].
  destruct (Hall room) as [entry ->]; [by left|].
  apply IH. intros r Hr. apply Hall. by right.
Qed.

Lemma store_rooms_stops (good rest : list Room) (bad : Room) key
    (m : gmap string string) :
  first_missing_key good = None → read_room bad = inl key →
  store_rooms (good ++ bad :: rest) m = store_rooms good m ∧
  first_missing_key (good ++ bad :: rest) = Some key.
Proof.
  revert m. induction good as [|room good IH]; intros m Hgood Hbad; simpl.
  - by rewrite Hbad.
  - simpl in Hgood. destruct (read_room room) as [k|[id name]]; [done|].
    by apply IH.
Qed.

(** X6. When every fetched room has its config, its name and its id,
    [async_set_all_rooms] returns, and afterwards [get_room_name] gives,
    for a device located in a fetched room, the name of the last fetched
    room with that id; for a device located elsewhere it gives what it
    gave before, so entries of earlier loads stay in the registry. *)
Theorem rooms_loaded_then_named (s : World W) (response : list Room) (w : W)
    (device : Device) (location : string) :
  client_get_all_rooms (ext s) = (Return response, w) →
  (∀ room, room ∈ response → ∃ entry, read_room room = inr entry) →
  dev_location device = Some location →
  fst (async_set_all_rooms s) = Return tt ∧
  (∀ i room name, response !! i = Some room →
     read_room room = inr (location, name) →
     (∀ j later, (i < j)%nat → response !! j = Some later →
        room_id later ≠ Some location) →
     get_room_name (self (snd (async_set_all_rooms s))) device = Some name) ∧
  ((∀ room, room ∈ response → room_id room ≠ Some location) →
     get_room_name (self (snd (async_set_all_rooms s))) device =
     get_room_name (self s) device).
Proof.
  intros Hfetch Hall%first_missing_key_None Hloc.
  rewrite async_set_all_rooms_run, Hfetch, Hall. simpl.
  unfold get_room_name. rewrite Hloc. simpl. split_and!; [done | |].
  - intros i room name Hi Hread Hlast. by eapply store_rooms_last.
  - intros Hother. by apply store_rooms_other.
Qed.

(** X7. However [async_set_all_rooms] ends, it asks the vendor client
    once, changes no attribute of the coordinator but [rooms], and removes
    no room id from the registry; when the fetch itself raises, the error
    is passed on and the coordinator is as it was. *)
Theorem rooms_only_grow (s : World W) :
  log (snd (async_set_all_rooms s)) = log s ++ [CallGetAllRooms] ∧
  same_but_rooms (self s) (self (snd (async_set_all_rooms s))) ∧
  dom (rooms (self s)) ⊆ dom (rooms (self (snd (async_set_all_rooms s)))) ∧
  (∀ e w, client_get_all_rooms (ext s) = (Raise e, w) →
     async_set_all_rooms s =
       (Raise e, {| self := self s; ext := w; log := log s ++ [CallGetAllRooms] |})).
Proof.
  rewrite async_set_all_rooms_run.
  destruct (client_get_all_rooms (ext s)) as [[response|e] w]; simpl.
  - split_and!; [done | by repeat split | apply store_rooms_dom | done].
  - split_and!; [done | by repeat split | done |]. by intros e0 w0 [= <- <-].
Qed.

(** X8. When a fetched room lacks a key, [async_set_all_rooms] raises
    [KeyError] for it, looking for ["config"] first, then ["name"], then
    ["id"]; the rooms in front of it are in the registry by then (the last
    of equal ids wins) and stay there, and ids that only occur behind it
    are not stored. *)
Theorem rooms_stop_at_missing_key (s : World W) (good rest : list Room)
    (bad : Room) (key : string) (w : W) :
  client_get_all_rooms (ext s) = (Return (good ++ bad :: rest), w) →
  (∀ room, room ∈ good → ∃ entry, read_room room = inr entry) →
  read_room bad = inl key →
  fst (async_set_all_rooms s) = Raise (KeyError key) ∧
  (∀ i room id name, good !! i = Some room → read_room room = inr (id, name) →
     (∀ j later, (i < j)%nat → good !! j = Some later → room_id later ≠ Some id) →
     rooms (self (snd (async_set_all_rooms s))) !! id = Some name) ∧
  (∀ k, (∀ room, room ∈ good → room_id room ≠ Some k) →
     rooms (self (snd (async_set_all_rooms s))) !! k = rooms (self s) !! k) ∧
  (room_config bad = None → key = "config") ∧
  (∀ cfg, room_config bad = Some cfg → cfg_name cfg = None → key = "name").
Proof.
  intros Hfetch Hgood%first_missing_key_None Hbad.
  rewrite async_set_all_rooms_run, Hfetch.
  destruct (store_rooms_stops good rest bad key (rooms (self s)) Hgood Hbad)
    as [-> ->]. simpl. split_and!.
  - done.
  - intros i room id name Hi Hread Hlast. by eapply store_rooms_last.
  - intros k Hother. by apply store_rooms_other.
  - intros Hcfg. unfold read_room in Hbad. rewrite Hcfg in Hbad. congruence.
  - intros cfg Hcfg Hname. unfold read_room in Hbad. rewrite Hcfg, Hname in Hbad.
    congruence.
Qed.

End RoomsMore.

(** ** Setup *)

Section SetupMore.
Context {K : Const} {W : Type} {VC : VendorClient W}.

Lemma configured_same (c : Coordinator) ctype serial :
  same_but_controller c (configured ctype serial c).
Proof. by repeat split. Qed.

Lemma fetch_and_configure_frame (s1 : World W) :
  same_but_controller (self s1) (self (snd (fetch_and_configure s1))) ∧
  log (snd (fetch_and_configure s1)) = log s1 ++ [CallGetController].
Proof.
  destruct (client_get_controller (ext s1)) as [r w] eqn:Hfetch.
  rewrite (async_setup_configure _ _ _ Hfetch).
  destruct r as [cd|e]; [|by repeat split].
  destruct (cd_controllerType cd) as [ctype|]; [|by repeat split].
  destruct (cd_serialNumber cd) as [serial|]; by repeat split.
Qed.

Lemma async_setup_ensured (s s1 : World W) :
  credentials_ensured s s1 →
  async_setup s = fetch_and_configure s1 ∧ self s1 = self s.
Proof.
  intros [Hcached|host password w Hfalsy Hhost Hpass Htoken].
  - by rewrite async_setup_cached.
  - rewrite async_setup_authenticate by done. by rewrite Hhost, Hpass, Htoken.
Qed.

(** X9. With no connection data cached, [async_setup] needs host and
    password in the config entry: when the host is missing it raises
    [KeyError] for it, when only the password is missing it raises
    [KeyError] for that; in both cases no call has been made and nothing
    has changed. *)
Theorem async_setup_missing_config (s : World W) :
  falsy (livisi_connection_data (ext s)) = true →
  (config_entry (self s) !! CONF_HOST = None →
     async_setup s = (Raise (KeyError CONF_HOST), s)) ∧
  (is_Some (config_entry (self s) !! CONF_HOST) →
   config_entry (self s) !! CONF_PASSWORD = None →
     async_setup s = (Raise (KeyError CONF_PASSWORD), s)).
Proof.
  intros Hfalsy. rewrite async_setup_authenticate by done. split.
  - by intros ->.
  - intros [host ->] ->. done.
Qed.

(** X10. The calls of [async_setup]: with connection data cached, the
    controller fetch and nothing else; without, one token request with
    host and password of the config entry, followed by the controller
    fetch only if the token was granted. *)
Theorem async_setup_calls (s : World W) :
  (falsy (livisi_connection_data (ext s)) = false →
     log (snd (async_setup s)) = log s ++ [CallGetController]) ∧
  (∀ host password,
     falsy (livisi_connection_data (ext s)) = true →
     config_entry (self s) !! CONF_HOST = Some host →
     config_entry (self s) !! CONF_PASSWORD = Some password →
     log (snd (async_setup s)) =
       log s ++ CallSetToken (connection_data_of host password) ::
       match fst (client_set_token (connection_data_of host password) (ext s)) with
       | Return _ => [CallGetController]
       | Raise _ => []
       end).
Proof.
  split.
  - intros Hcached. rewrite async_setup_cached by done.
    apply fetch_and_configure_frame.
  - intros host password Hfalsy Hhost Hpass.
    rewrite async_setup_authenticate by done. rewrite Hhost, Hpass.
    destruct (client_set_token _ (ext s)) as [[[]|e] w]; simpl; [|done].
    destruct (fetch_and_configure_frame
                {| self := self s; ext := w;
                   log := log s ++ [CallSetToken (connection_data_of host password)] |})
      as [_ ->]. simpl. by rewrite <- app_assoc.
Qed.

(** X11. Controller data with a missing key: without ["controllerType"]
    [async_setup] raises [KeyError] for it and the coordinator is as it
    was; with the type but without ["serialNumber"] it raises [KeyError]
    for the serial number after port, avatar flag and controller type
    have been assigned, and only the serial number keeps its old value. *)
Theorem async_setup_missing_controller_key (s s1 : World W)
    (controller_data : ControllerData) (w : W) :
  credentials_ensured s s1 →
  client_get_controller (ext s1) = (Return controller_data, w) →
  (cd_controllerType controller_data = None →
     async_setup s =
       (Raise (KeyError "controllerType"),
        {| self := self s; ext := w; log := log s1 ++ [CallGetController] |})) ∧
  (∀ ctype,
     cd_controllerType controller_data = Some ctype →
     cd_serialNumber controller_data = None →
     fst (async_setup s) = Raise (KeyError "serialNumber") ∧
     controller_type (self (snd (async_setup s))) = ctype ∧
     port (self (snd (async_setup s))) =
       (if decide (ctype = AVATAR) then AVATAR_PORT else CLASSIC_PORT) ∧
     is_avatar (self (snd (async_setup s))) = bool_decide (ctype = AVATAR) ∧
     serial_number (self (snd (async_setup s))) = serial_number (self s)).
Proof.
  intros [-> <-]%async_setup_ensured Hfetch.
  rewrite (async_setup_configure _ _ _ Hfetch). split.
  - by intros ->.
  - by intros ctype -> ->.
Qed.

(** X12. However [async_setup] ends, config entry, known devices,
    capability index, room registry and snapshot are what they were. *)
Theorem async_setup_frame (s : World W) :
  same_but_controller (self s) (self (snd (async_setup s))).
Proof.
  destruct (falsy (livisi_connection_data (ext s))) eqn:Hfalsy.
  - rewrite async_setup_authenticate by done.
    destruct (config_entry (self s) !! CONF_HOST) as [host|]; [|by repeat split].
    destruct (config_entry (self s) !! CONF_PASSWORD) as [password|];
      [|by repeat split].
    destruct (client_set_token _ (ext s)) as [[[]|e] w]; [|by repeat split].
    apply (fetch_and_configure_frame
             {| self := self s; ext := w;
                log := log s ++ [CallSetToken (connection_data_of host password)] |}).
  - rewrite async_setup_cached by done. apply fetch_and_configure_frame.
Qed.

Lemma async_setup_port (s s' : World W) :
  async_setup s = (Return tt, s') →
  port (self s') =
    (if decide (controller_type (self s') = AVATAR) then AVATAR_PORT else CLASSIC_PORT).
Proof.
  assert (∀ s1, fetch_and_configure s1 = (Return tt, s') →
    port (self s') =
      (if decide (controller_type (self s') = AVATAR)
       then AVATAR_PORT else CLASSIC_PORT)) as Htail.
  { intros s1. destruct (client_get_controller (ext s1)) as [r w] eqn:Hfetch.
    rewrite (async_setup_configure _ _ _ Hfetch).
    destruct r as [cd|e]; [|done].
    destruct (cd_controllerType cd) as [ctype|]; [|done].
    destruct (cd_serialNumber cd) as [serial|]; [|done].
    by intros [= <-]. }
  destruct (falsy (livisi_connection_data (ext s))) eqn:Hfalsy.
  - rewrite async_setup_authenticate by done.
    destruct (config_entry (self s) !! CONF_HOST) as [host|]; [|done].
    destruct (config_entry (self s) !! CONF_PASSWORD) as [password|]; [|done].
    destruct (client_set_token _ (ext s)) as [[[]|e] w]; [|done]. apply Htail.
  - rewrite async_setup_cached by done. apply Htail.
Qed.

(** X13. After a successful [async_setup], [ws_connect] asks the
    websocket for the avatar port when the stored controller type is
    [AVATAR] and for the classic port otherwise, and so does the
    reconnect of [on_close]. *)
Theorem ws_connect_after_setup (s s' : World W) :
  async_setup s = (Return tt, s') →
  let chosen :=
    if decide (controller_type (self s') = AVATAR) then AVATAR_PORT else CLASSIC_PORT in
  log (snd (ws_connect s')) = log s' ++ [WebsocketConnect chosen] ∧
  last (log (snd (on_close s'))) = Some (WebsocketConnect chosen).
Proof.
  intros Hport%async_setup_port chosen. subst chosen. rewrite <- Hport. split.
  - unfold ws_connect, bind, get_self, call.
    by destruct (websocket_connect (port (self s')) (ext s')).
  - unfold on_close, bind at 1, get_self.
    unfold bind at 1. rewrite unreachable_broadcast_run.
    unfold bind, call, logged. simpl.
    destruct (websocket_connect (port (self s')) (ext s')). simpl.
    by rewrite last_snoc.
Qed.

End SetupMore.

(** ** Events and the stream *)

Section EventsMore.
Context {K : Const} {W : Type} {VC : VendorClient W}.

(** X14. A [MotionDetected] event (the constant being another string than
    the one of [ButtonPressed]) whose source is a key of the capability
    index fires exactly one [livisi_event] with the device id found and
    the motion kind, and no button fields; a source that is no key of the
    index fires nothing. *)
Theorem on_data_motion_detected (event_data : LivisiEvent) (s : World W) :
  type event_data = LIVISI_EVENT_MOTION_DETECTED →
  LIVISI_EVENT_MOTION_DETECTED ≠ LIVISI_EVENT_BUTTON_PRESSED →
  (∀ device_id,
     capability_to_device (self s) !! source event_data = Some device_id →
     on_data event_data s = (Return tt, logged s [motion_event device_id])) ∧
  (capability_to_device (self s) !! source event_data = None →
     on_data event_data s = (Return tt, s)).
Proof.
  intros Htype Hne. unfold on_data. rewrite Htype.
  rewrite decide_False by done. rewrite decide_True by done.
  unfold bind, get_self. split.
  - by intros device_id ->.
  - by intros ->.
Qed.

(** X15. [on_close] publishes exactly once per known device: the
    publishes in front of the connect are pairwise different and as many
    as [self.devices] has elements; and [on_close] returns or raises as
    the connect does, leaving the coordinator as it was. *)
Theorem on_close_once_per_device (s : World W) :
  ∃ publishes,
    on_close s =
      ( fst (websocket_connect (port (self s)) (ext s)),
        {| self := self s;
           ext := snd (websocket_connect (port (self s)) (ext s));
           log := log s ++ publishes ++ [WebsocketConnect (port (self s))] |} ) ∧
    NoDup publishes ∧
    length publishes = size (devices (self s)) ∧
    (∀ e, e ∈ publishes → ∃ device_id, device_id ∈ devices (self s) ∧
       e = DispatcherSend (signal LIVISI_REACHABILITY_CHANGE device_id) (VBool false)).
Proof.
  exists (unreachable_publishes (self s)). split_and!.
  - unfold on_close, bind at 1, get_self.
    unfold bind at 1. rewrite unreachable_broadcast_run.
    unfold bind, call, logged, unreachable_publishes. simpl.
    destruct (websocket_connect (port (self s)) (ext s)). simpl.
    by rewrite <- app_assoc.
  - apply NoDup_fmap_2; [|apply NoDup_elements].
    intros d1 d2 [= Hsig]. by apply signal_inj_source in Hsig.
  - unfold unreachable_publishes. by rewrite length_map.
  - intros e (device_id & -> & Hin)%list_elem_of_fmap.
    exists device_id. by rewrite <- elem_of_elements.
Qed.

(** X16. On a coordinator as [__init__] builds it, before any poll, room
    load or setup: every event of the button or motion type is dropped,
    [get_room_name] finds no room for any device, and [on_close] publishes
    nothing and asks for port [0]. *)
Theorem fresh_coordinator (config : gmap string string) (w : W) (l : list Effect)
    (event_data : LivisiEvent) (device : Device) :
  let s := {| self := __init__ config; ext := w; log := l |} in
  (type event_data = LIVISI_EVENT_BUTTON_PRESSED ∨
   type event_data = LIVISI_EVENT_MOTION_DETECTED →
   on_data event_data s = (Return tt, s)) ∧
  get_room_name (__init__ config) device = None ∧
  log (snd (on_close s)) = l ++ [WebsocketConnect 0].
Proof.
  intros s. split_and!.
  - intros Htype. unfold on_data.
    destruct (decide (type event_data = LIVISI_EVENT_BUTTON_PRESSED)); [done|].
    destruct Htype as [?|Htype]; [done|]. by rewrite decide_True.
  - unfold get_room_name. by destruct (dev_location device).
  - unfold on_close, bind at 1, get_self.
    unfold bind at 1. rewrite unreachable_broadcast_run.
    unfold bind, call, logged. simpl. rewrite elements_empty. simpl.
    destruct (websocket_connect 0 w). simpl. by rewrite app_nil_r.
Qed.

(** X17. Within one event kind the signal of a publish determines the
    source, and for one source it determines the event kind: if two calls
    of [_async_dispatcher_send] on the same world, the first with a payload
    that is not [None], leave the same world behind, then they carried the
    same payload, and with the same event kind they named the same source,
    with the same source the same event kind. *)
Theorem dispatcher_send_separates (event1 event2 source1 source2 : string)
    (data1 data2 : Value) (s : World W) :
  data1 ≠ VNone →
  snd (_async_dispatcher_send event1 source1 data1 s) =
  snd (_async_dispatcher_send event2 source2 data2 s) →
  data1 = data2 ∧
  (event1 = event2 → source1 = source2) ∧
  (source1 = source2 → event1 = event2).
Proof.
  intros Hdata Heq. apply (f_equal log) in Heq.
  rewrite !dispatcher_send_run in Heq. unfold logged, populated in Heq.
  simpl in Heq. apply app_inv_head in Heq.
  destruct data1; [done| | | |]; destruct data2; simpl in Heq;
    try discriminate Heq; injection Heq as Hsig Hpayload; subst;
    (split_and!; [done | intros -> | intros ->];
     [by apply signal_inj_source in Hsig | by apply signal_inj_event in Hsig]).
Qed.

End EventsMore.

(** ** The further properties on scripted runs *)

Section RunsMore.
Import Scripted.
#[local] Existing Instance Scripted.const.

Ltac holds := apply (bool_decide_unpack _); vm_compute; exact I.
Ltac fails := apply (bool_decide_eq_false_1 _); vm_compute; reflexivity.

Lemma async_get_devices_ids_witness :
  fst (async_get_devices answered_bare) = Return [d1; bare] ∧
  async_get_devices answered_nameless =
    (Raise (KeyError "id"),
     {| self := polled; ext := script [] []; log := [CallGetDevices] |}).
Proof.
  assert (client_get_devices (ext answered_bare) =
          (Return [d1; bare], script [] [])) as Hbare by reflexivity.
  assert (client_get_devices (ext answered_nameless) =
          (Return [d1; nameless], script [] [])) as Hnameless by reflexivity.
  destruct (async_get_devices_ids _ _ _ Hbare) as [Hreturns _].
  destruct (async_get_devices_ids _ _ _ Hnameless) as [_ Hraises].
  split.
  - apply Hreturns. intros device c [->|[->|Hin%elem_of_nil]%elem_of_cons]%elem_of_cons;
      [by eexists | intros Hdecl%elem_of_nil; done | done].
  - apply Hraises. vm_compute. discriminate.
Defined.

Lemma update_data_index_consistent_witness :
  capability_to_device (self (snd (_async_update_data expired_then_answered))) !! "c2"
    = Some "d2" ∧
  capability_to_device (self (snd (_async_update_data expired_then_answered))) !! "c7"
    = None.
Proof.
  assert (_async_update_data expired_then_answered =
          (Return [d1; d2], snd (_async_update_data expired_then_answered))) as Hrun
    by (vm_compute; reflexivity).
  destruct (update_data_index_consistent _ _ _ Hrun) as [Hnone Hwins].
  split.
  - apply (Hwins "c2" 1%nat d2); [reflexivity | holds |].
    intros [|[|[|j]]] later Hlt Hj; solve [lia | discriminate Hj].
  - apply Hnone.
    intros device [->|[->|Hin%elem_of_nil]%elem_of_cons]%elem_of_cons;
      [fails | fails | done].
Defined.

Lemma button_after_poll_witness :
  on_data long_press (snd (_async_update_data expired_then_answered)) =
    (Return tt,
     logged (snd (_async_update_data expired_then_answered))
       [BusFire "livisi_event"
          [("device_id", VStr "d1"); ("type", VStr "button_pressed");
           ("button_index", VInt 2); ("press_type", VStr "LongPress")]]).
Proof.
  assert (_async_update_data expired_then_answered =
          (Return [d1; d2], snd (_async_update_data expired_then_answered))) as Hrun
    by (vm_compute; reflexivity).
  assert (type long_press = LIVISI_EVENT_BUTTON_PRESSED) as Htype by reflexivity.
  destruct (button_after_poll _ _ _ long_press Hrun Htype) as [Hresolved _].
  destruct (Hresolved 0%nat d1) as (device_id & Hid & Hfired);
    [reflexivity | holds | |].
  - intros [|[|[|j]]] later Hlt Hj; try solve [lia | discriminate Hj].
    injection Hj as <-. fails.
  - injection Hid as <-. rewrite Hfired. vm_compute. reflexivity.
Defined.

Lemma rooms_loaded_then_named_witness :
  fst (async_set_all_rooms (with_rooms [kitchen; bath; kitchen_renamed])) = Return tt ∧
  get_room_name
    (self (snd (async_set_all_rooms (with_rooms [kitchen; bath; kitchen_renamed])))) d1
    = Some "Cuisine".
Proof.
  assert (client_get_all_rooms (ext (with_rooms [kitchen; bath; kitchen_renamed])) =
          (Return [kitchen; bath; kitchen_renamed],
           ext (with_rooms [kitchen; bath; kitchen_renamed]))) as Hfetch
    by reflexivity.
  destruct (rooms_loaded_then_named _ _ _ d1 "r1" Hfetch) as (Hreturns & Hnamed & _).
  - intros room [->|[->|[->|Hin%elem_of_nil]%elem_of_cons]%elem_of_cons]%elem_of_cons;
      [by eexists | by eexists | by eexists | done].
  - reflexivity.
  - split; [exact Hreturns|].
    apply (Hnamed 2%nat kitchen_renamed); [reflexivity | reflexivity |].
    intros [|[|[|[|j]]]] later Hlt Hj; solve [lia | discriminate Hj].
Defined.

Lemma rooms_only_grow_witness :
  async_set_all_rooms (world polled None [] (Return classic) (Raise ClientConnectorError)) =
    (Raise ClientConnectorError,
     {| self := polled;
        ext := ext (world polled None [] (Return classic) (Raise ClientConnectorError));
        log := [CallGetAllRooms] |}).
Proof.
  destruct (rooms_only_grow
              (world polled None [] (Return classic) (Raise ClientConnectorError)))
    as (_ & _ & _ & Hraises).
  apply Hraises. reflexivity.
Defined.

Lemma rooms_stop_at_missing_key_witness :
  fst (async_set_all_rooms (with_rooms [kitchen_renamed; unnamed_room; bath])) =
    Raise (KeyError "name") ∧
  rooms (self (snd (async_set_all_rooms
                      (with_rooms [kitchen_renamed; unnamed_room; bath])))) !! "r1"
    = Some "Cuisine" ∧
  rooms (self (snd (async_set_all_rooms
                      (with_rooms [kitchen_renamed; unnamed_room; bath])))) !! "r3"
    = None.
Proof.
  assert (client_get_all_rooms
            (ext (with_rooms [kitchen_renamed; unnamed_room; bath])) =
          (Return ([kitchen_renamed] ++ unnamed_room :: [bath]),
           ext (with_rooms [kitchen_renamed; unnamed_room; bath]))) as Hfetch
    by reflexivity.
  destruct (rooms_stop_at_missing_key _ _ _ _ "name" _ Hfetch)
    as (Hraises & Hstored & Hkept & _).
  - intros room [->|Hin%elem_of_nil]%elem_of_cons; [by eexists | done].
  - reflexivity.
  - split_and!.
    + exact Hraises.
    + apply (Hstored 0%nat kitchen_renamed); [reflexivity | reflexivity |].
      intros [|[|j]] later Hlt Hj; solve [lia | discriminate Hj].
    + rewrite (Hkept "r3"); [vm_compute; reflexivity|].
      intros room [->|Hin%elem_of_nil]%elem_of_cons; [discriminate | done].
Defined.

Lemma async_setup_missing_config_witness :
  async_setup (world (__init__ ∅) None [Return tt] (Return classic) (Return [])) =
    (Raise (KeyError "host"),
     world (__init__ ∅) None [Return tt] (Return classic) (Return [])) ∧
  async_setup
    (world (__init__ {[ "host" := "192.168.0.2" ]}) None [Return tt]
       (Return classic) (Return [])) =
    (Raise (KeyError "password"),
     world (__init__ {[ "host" := "192.168.0.2" ]}) None [Return tt]
       (Return classic) (Return [])).
Proof.
  split.
  - destruct (async_setup_missing_config
                (world (__init__ ∅) None [Return tt] (Return classic) (Return [])))
      as [Hhost _]; [reflexivity|].
    apply Hhost. vm_compute. reflexivity.
  - destruct (async_setup_missing_config
                (world (__init__ {[ "host" := "192.168.0.2" ]}) None [Return tt]
                   (Return classic) (Return [])))
      as [_ Hpassword]; [reflexivity|].
    apply Hpassword; [vm_compute; by eexists | vm_compute; reflexivity].
Defined.

Lemma async_setup_calls_witness :
  log (snd (async_setup
              (world (__init__ configured_entry) None [Return tt]
                 (Return classic) (Return [])))) =
    [CallSetToken (Some {[ "ip_address" := "192.168.0.2"; "password" := "secret" ]});
     CallGetController] ∧
  log (snd (async_setup
              (world (__init__ configured_entry) None [Raise (OtherError "Unauthorized")]
                 (Return classic) (Return [])))) =
    [CallSetToken (Some {[ "ip_address" := "192.168.0.2"; "password" := "secret" ]})].
Proof.
  split.
  - destruct (async_setup_calls
                (world (__init__ configured_entry) None [Return tt]
                   (Return classic) (Return []))) as [_ Hcalls].
    rewrite (Hcalls "192.168.0.2" "secret");
      [vm_compute; reflexivity | reflexivity | vm_compute; reflexivity
      | vm_compute; reflexivity].
  - destruct (async_setup_calls
                (world (__init__ configured_entry) None
                   [Raise (OtherError "Unauthorized")]
                   (Return classic) (Return []))) as [_ Hcalls].
    rewrite (Hcalls "192.168.0.2" "secret");
      [vm_compute; reflexivity | reflexivity | vm_compute; reflexivity
      | vm_compute; reflexivity].
Defined.

Lemma async_setup_missing_controller_key_witness :
  let s := world polled (Some configured_entry) []
             (Return classic_without_serial) (Return []) in
  fst (async_setup s) = Raise (KeyError "serialNumber") ∧
  controller_type (self (snd (async_setup s))) = "Classic" ∧
  port (self (snd (async_setup s))) = 8080 ∧
  serial_number (self (snd (async_setup s))) = "".
Proof.
  intros s.
  assert (credentials_ensured s s) as Hensured.
  { apply credentials_cached. vm_compute. reflexivity. }
  assert (client_get_controller (ext s) = (Return classic_without_serial, ext s))
    as Hfetch by reflexivity.
  destruct (async_setup_missing_controller_key s s _ _ Hensured Hfetch)
    as [_ Hserial].
  destruct (Hserial "Classic" eq_refl eq_refl) as (Hraises & Htype & Hport & _ & Hold).
  split_and!; [exact Hraises | exact Htype | | ].
  - rewrite Hport. reflexivity.
  - rewrite Hold. reflexivity.
Defined.

Lemma ws_connect_after_setup_witness :
  log (snd (ws_connect (snd (async_setup idle)))) =
    [CallGetController; WebsocketConnect 9090].
Proof.
  assert (async_setup idle = (Return tt, snd (async_setup idle))) as Hrun
    by (vm_compute; reflexivity).
  destruct (ws_connect_after_setup _ _ Hrun) as [Hconnect _].
  rewrite Hconnect. vm_compute. reflexivity.
Defined.

Lemma on_data_motion_detected_witness :
  on_data motion idle =
    (Return tt,
     logged idle
       [BusFire "livisi_event"
          [("device_id", VStr "d1"); ("type", VStr "motion_detected")]]).
Proof.
  assert (type motion = LIVISI_EVENT_MOTION_DETECTED) as Htype by reflexivity.
  assert (LIVISI_EVENT_MOTION_DETECTED ≠ LIVISI_EVENT_BUTTON_PRESSED) as Hne
    by discriminate.
  destruct (on_data_motion_detected motion idle Htype Hne) as [Hresolved _].
  rewrite (Hresolved "d1"); [|vm_compute; reflexivity].
  reflexivity.
Defined.

Lemma fresh_coordinator_witness :
  on_data long_press (start (__init__ ∅) (script [] [])) =
    (Return tt, start (__init__ ∅) (script [] [])).
Proof.
  destruct (fresh_coordinator ∅ (script [] []) [] long_press d1) as (Hdropped & _).
  apply Hdropped. left. reflexivity.
Defined.

Lemma dispatcher_send_separates_witness :
  snd (_async_dispatcher_send "a" "b_c" (VInt 1) idle) =
  snd (_async_dispatcher_send "a_b" "c" (VInt 1) idle) ∧
  VInt 1 = VInt 1 ∧ ("a" = "a_b" → "b_c" = "c") ∧ ("b_c" = "c" → "a" = "a_b").
Proof.
  assert (snd (_async_dispatcher_send "a" "b_c" (VInt 1) idle) =
          snd (_async_dispatcher_send "a_b" "c" (VInt 1) idle)) as Heq
    by (vm_compute; reflexivity).
  assert (VInt 1 ≠ VNone) as Hdata by discriminate.
  split; [exact Heq|].
  exact (dispatcher_send_separates _ _ _ _ _ _ idle Hdata Heq).
Defined.

End RunsMore.
